(** * slog_color: a colourising [log/slog] handler

    Shallow embedding of the Go package [logger] (type [ColorHandler] with
    its methods [WithGroup], [WithAttrs], [Enabled], [Handle],
    [processAttrs], [processAttr], [SetHook] and the helpers [formatValue],
    [formatAnyValue], [isJSON]) and the properties its specification
    states about it.

    Layout: strings and [fmt] verbs, the JSON syntax check of
    [encoding/json], the [log/slog] data model, Go slices over a store of
    backing arrays, the handler, the rendered line in the words of the
    specification, an interleaving model of concurrent [Handle] calls, a
    test bench; then the lemmas: slices, derivation, the refinement of the
    rendered line by [Handle], and the theorems on isolation, the hook,
    the line, groups, values and concurrent dispatch. *)

From Stdlib Require Import ZArith String Ascii List Lia Bool DecimalString.
From stdpp Require Import base option list strings.

(* ================================================================== *)
(** ** Strings and the [fmt] verbs the handler uses *)

(** [strconv.Itoa] / the [%d] and [%v] verbs on an integer: decimal, with a
    leading minus sign for negative numbers. *)
Definition itoa (z : Z) : string := NilZero.string_of_int (Z.to_int z).

(** [%02d] on a number below one hundred, as the clock layouts of package
    [time] print an hour, a minute or a second. *)
Definition two_digits (z : Z) : string :=
  if (z <? 10)%Z then "0" +:+ itoa z else itoa z.

Fixpoint spaces (n : nat) : string :=
  match n with
  | O => ""
  | S n' => String " " (spaces n')
  end.

(** [%-Ns]: the string, then blanks up to width [N] (never truncated). *)
Definition pad_right (width : nat) (s : string) : string :=
  s +:+ spaces (width - String.length s).

Definition newline : string := String (ascii_of_nat 10) "".
Definition dquote : ascii := ascii_of_nat 34.
Definition escape : string := String (ascii_of_nat 27) "".

Fixpoint join (sep : string) (l : list string) : string :=
  match l with
  | [] => ""
  | [x] => x
  | x :: rest => x +:+ sep +:+ join sep rest
  end.

Fixpoint concat_strings (l : list string) : string :=
  match l with
  | [] => ""
  | x :: rest => x +:+ concat_strings rest
  end.

(** The bytes of a Go string. *)
Definition bytes_of (s : string) : list ascii := list_ascii_of_string s.

(** [%v] on a byte slice whose type has no [String] or [Error] method
    (the byte-slice case of [fmt]'s printer, verb [v]): the decimal value of
    every byte, blank-separated, in square brackets. *)
Definition fmt_bytes (b : string) : string :=
  "[" +:+ join " " (map (fun c => itoa (Z.of_N (N_of_ascii c))) (bytes_of b)) +:+ "]".

(* ================================================================== *)
(** ** [encoding/json]: the syntax check behind [json.Unmarshal]

    [json.Unmarshal(data, &raw)] with [raw] a [json.RawMessage] first runs
    [checkValid], the scanner of the JSON grammar, and fails exactly when
    that scan fails; on success the raw message takes the bytes.  The
    scanner follows RFC 8259: one value between optional white space;
    control bytes are refused inside strings, escapes are checked, numbers
    have no leading zeros, containers nest at most [maxNestingDepth]
    deep. *)
Module Json.

Definition maxNestingDepth : N := 10000.

Definition is_space (c : ascii) : bool :=
  let n := N_of_ascii c in
  ((n =? 32) || (n =? 9) || (n =? 13) || (n =? 10))%N.

Definition is_digit (c : ascii) : bool :=
  let n := N_of_ascii c in ((48 <=? n) && (n <=? 57))%N.

Definition is_digit19 (c : ascii) : bool :=
  let n := N_of_ascii c in ((49 <=? n) && (n <=? 57))%N.

Definition is_hex (c : ascii) : bool :=
  let n := N_of_ascii c in
  (((48 <=? n) && (n <=? 57)) || ((97 <=? n) && (n <=? 102))
   || ((65 <=? n) && (n <=? 70)))%N.

Fixpoint skip_space (s : list ascii) : list ascii :=
  match s with
  | c :: r => if is_space c then skip_space r else s
  | [] => []
  end.

Fixpoint skip_digits (s : list ascii) : list ascii :=
  match s with
  | c :: r => if is_digit c then skip_digits r else s
  | [] => []
  end.

(** After the opening quote: up to and including the closing quote
    ([stateInString], [stateInStringEsc], [stateInStringEscU...]). *)
Fixpoint scan_string (s : list ascii) : option (list ascii) :=
  match s with
  | [] => None
  | c :: r =>
      if Ascii.eqb c dquote then Some r
      else if Ascii.eqb c "\" then
        match r with
        | e :: r' =>
            if existsb (Ascii.eqb e)
                 ("b" :: "f" :: "n" :: "r" :: "t" :: "\" :: "/" :: dquote :: nil)%char
            then scan_string r'
            else if Ascii.eqb e "u" then
              match r' with
              | h1 :: h2 :: h3 :: h4 :: r'' =>
                  if is_hex h1 && is_hex h2 && is_hex h3 && is_hex h4
                  then scan_string r'' else None
              | _ => None
              end
            else None
        | [] => None
        end
      else if (N_of_ascii c <? 32)%N then None
      else scan_string r
  end.

(** At least one digit, then the rest of the digits. *)
Definition scan_digits1 (s : list ascii) : option (list ascii) :=
  match s with
  | c :: r => if is_digit c then Some (skip_digits r) else None
  | [] => None
  end.

Definition scan_exp (s : list ascii) : option (list ascii) :=
  match s with
  | c :: r =>
      if Ascii.eqb c "e" || Ascii.eqb c "E" then
        match r with
        | sg :: r' =>
            if Ascii.eqb sg "+" || Ascii.eqb sg "-" then scan_digits1 r'
            else scan_digits1 r
        | [] => None
        end
      else Some s
  | [] => Some s
  end.

Definition scan_frac (s : list ascii) : option (list ascii) :=
  match s with
  | c :: r =>
      if Ascii.eqb c "." then
        match scan_digits1 r with
        | Some r' => scan_exp r'
        | None => None
        end
      else scan_exp s
  | [] => Some s
  end.

(** After an optional minus sign ([stateNeg], [state0], [state1]). *)
Definition scan_int (s : list ascii) : option (list ascii) :=
  match s with
  | c :: r =>
      if Ascii.eqb c "0" then scan_frac r
      else if is_digit19 c then scan_frac (skip_digits r)
      else None
  | [] => None
  end.

Fixpoint scan_literal (lit s : list ascii) : option (list ascii) :=
  match lit with
  | [] => Some s
  | l :: lit' =>
      match s with
      | c :: r => if Ascii.eqb c l then scan_literal lit' r else None
      | [] => None
      end
  end.

(** One value, leading white space skipped ([stateBeginValue]); the
    elements of an array after the first one ([stateEndValue] inside an
    array); the members of an object.  [fuel] bounds the number of
    nested calls; every call consumes input, so the length of the input
    plus one is enough. *)
Fixpoint scan_value (fuel : nat) (depth : N) (s : list ascii)
  : option (list ascii) :=
  match fuel with
  | O => None
  | S fuel' =>
      match skip_space s with
      | [] => None
      | c :: r =>
          if Ascii.eqb c "{" then
            if (maxNestingDepth <=? depth)%N then None
            else
              match skip_space r with
              | c' :: r' =>
                  if Ascii.eqb c' "}" then Some r'
                  else scan_members fuel' (N.succ depth) (c' :: r')
              | [] => None
              end
          else if Ascii.eqb c "[" then
            if (maxNestingDepth <=? depth)%N then None
            else
              match skip_space r with
              | c' :: r' =>
                  if Ascii.eqb c' "]" then Some r'
                  else
                    match scan_value fuel' (N.succ depth) (c' :: r') with
                    | Some rest => scan_elements fuel' (N.succ depth) rest
                    | None => None
                    end
              | [] => None
              end
          else if Ascii.eqb c dquote then scan_string r
          else if Ascii.eqb c "-" then scan_int r
          else if is_digit c then scan_int (c :: r)
          else if Ascii.eqb c "t" then scan_literal (bytes_of "rue") r
          else if Ascii.eqb c "f" then scan_literal (bytes_of "alse") r
          else if Ascii.eqb c "n" then scan_literal (bytes_of "ull") r
          else None
      end
  end
with scan_elements (fuel : nat) (depth : N) (s : list ascii)
  : option (list ascii) :=
  match fuel with
  | O => None
  | S fuel' =>
      match skip_space s with
      | c :: r =>
          if Ascii.eqb c "]" then Some r
          else if Ascii.eqb c "," then
            match scan_value fuel' depth r with
            | Some rest => scan_elements fuel' depth rest
            | None => None
            end
          else None
      | [] => None
      end
  end
with scan_members (fuel : nat) (depth : N) (s : list ascii)
  : option (list ascii) :=
  match fuel with
  | O => None
  | S fuel' =>
      match skip_space s with
      | c :: r =>
          if Ascii.eqb c dquote then
            match scan_string r with
            | Some r1 =>
                match skip_space r1 with
                | c1 :: r2 =>
                    if Ascii.eqb c1 ":" then
                      match scan_value fuel' depth r2 with
                      | Some r3 =>
                          match skip_space r3 with
                          | c3 :: r4 =>
                              if Ascii.eqb c3 "}" then Some r4
                              else if Ascii.eqb c3 "," then
                                scan_members fuel' depth r4
                              else None
                          | [] => None
                          end
                      | None => None
                      end
                    else None
                | [] => None
                end
            | None => None
            end
          else None
      | [] => None
      end
  end.

(** [checkValid]: one value, then only white space. *)
Definition Valid (data : string) : bool :=
  let s := bytes_of data in
  match scan_value (S (List.length s)) 0 s with
  | Some rest => match skip_space rest with [] => true | _ => false end
  | None => false
  end.

End Json.

(* ================================================================== *)
(** ** [log/slog]: levels, values, attributes, records *)

(** [slog.Level] is an [int]; the four named levels. *)
Definition Level := Z.
Definition LevelDebug : Level := (-4)%Z.
Definition LevelInfo : Level := 0%Z.
Definition LevelWarn : Level := 4%Z.
Definition LevelError : Level := 8%Z.

(** A [time.Time] as the handler reads it: the instant in seconds since
    the Unix epoch and the offset of its location, in seconds east of
    UTC. *)
Record Time := mkTime { unixSec : Z; zoneOffset : Z }.

(** [t.Format(time.TimeOnly)], layout [15:04:05]: the wall clock of the
    instant in its location, two digits each, 24 hours. *)
Definition clock_seconds (t : Time) : Z := ((unixSec t + zoneOffset t) mod 86400)%Z.
Definition hour_of (t : Time) : Z := (clock_seconds t / 3600)%Z.
Definition minute_of (t : Time) : Z := ((clock_seconds t mod 3600) / 60)%Z.
Definition second_of (t : Time) : Z := (clock_seconds t mod 60)%Z.

Definition TimeOnly (t : Time) : string :=
  two_digits (hour_of t) +:+ ":" +:+ two_digits (minute_of t) +:+ ":"
  +:+ two_digits (second_of t).

(** The dynamic values an [interface{}] holds, as far as the handler and
    the [%v] verb tell them apart; the payload of a [slog.Value]; an
    attribute.  [Float64Value] keeps the IEEE bits, as [slog.Value] does.
    A value of kind [KindAny] holds a [GoAny] ([v.Any()]); a group holds
    its attributes. *)
Inductive GoAny : Type :=
| GoNil                            (* the nil interface *)
| GoError (msg : string)           (* implements [error]; [msg] is [Error()] *)
| GoString (s : string)            (* dynamic type [string] *)
| GoInt64 (n : Z)
| GoUint64 (n : Z)
| GoFloat64 (bits : Z)
| GoBool (b : bool)
| GoRawMessage (b : string)        (* [json.RawMessage], a named [[]byte] *)
| GoAttrs (l : list Attr)          (* [[]slog.Attr] *)
| GoOther (obj : nat)              (* a struct, map, pointer, channel ... *)
with Value : Type :=
| StringValue (s : string)         (* KindString *)
| Int64Value (n : Z)               (* KindInt64 *)
| Uint64Value (n : Z)              (* KindUint64 *)
| Float64Value (bits : Z)          (* KindFloat64 *)
| BoolValue (b : bool)             (* KindBool *)
| DurationValue (d : Z)            (* KindDuration, nanoseconds *)
| TimeValue (t : Time)             (* KindTime *)
| GroupValue (l : list Attr)       (* KindGroup *)
| AnyValue (a : GoAny)             (* KindAny *)
| LogValuerValue (obj : nat)       (* KindLogValuer *)
with Attr : Type :=
| MkAttr (Key : string) (Val : Value).

Definition Key (a : Attr) : string := match a with MkAttr k _ => k end.
Definition Val (a : Attr) : Value := match a with MkAttr _ v => v end.

Inductive Kind :=
| KindAny | KindBool | KindDuration | KindFloat64 | KindInt64 | KindString
| KindTime | KindUint64 | KindGroup | KindLogValuer.

Definition Value_Kind (v : Value) : Kind :=
  match v with
  | StringValue _ => KindString
  | Int64Value _ => KindInt64
  | Uint64Value _ => KindUint64
  | Float64Value _ => KindFloat64
  | BoolValue _ => KindBool
  | DurationValue _ => KindDuration
  | TimeValue _ => KindTime
  | GroupValue _ => KindGroup
  | AnyValue _ => KindAny
  | LogValuerValue _ => KindLogValuer
  end.

(** The zero [slog.Attr]: empty key, zero [Value] (kind [KindAny], nil). *)
Definition zeroAttr : Attr := MkAttr "" (AnyValue GoNil).

(** [context.Context] is passed through to the hook untouched. *)
Definition Context := nat.

(** A [slog.Record]: [r.Attrs(f)] visits [Attrs] front to back. *)
Record Record := mkRecord {
  rTime : Time;
  rLevel : Level;
  rMessage : string;
  rAttrs : list Attr
}.

(** What the package takes from its collaborators and does not define:
    the global switch [color.NoColor], the float, duration and time
    printers, [json.MarshalIndent] (the text or an error), the [%v] text of
    values whose printing is outside this model, the capacity the runtime
    picks when [append] has to grow, the error (or nil) a sink's [Write]
    reports for the bytes it is given, whether a hook function panics
    on a call, and whether [json.RawMessage] has a [String] method in the
    Go release at hand (it decides how [%v] prints one). *)
Record Externals := mkExternals {
  NoColor : bool;
  FormatFloat : Z -> string;
  Duration_String : Z -> string;
  Time_RFC3339 : Time -> string;
  MarshalIndent : GoAny -> string -> string -> string + string;
  Sprint_other : GoAny -> string;
  growcap : nat -> nat -> nat;
  Sink_Write : nat -> string -> option string;
  Hook_panics : nat -> Context -> Record -> bool;
  RawMessage_Stringer : bool
}.

(** The [%v] verb: an [error] prints its message, a string itself,
    integers in decimal, booleans as words; a [json.RawMessage] prints
    through its [String] method, as its text, in a release where it has
    one, and as a byte slice without methods, the values of its bytes,
    in a release where it has none. *)
Definition fmt_v (E : Externals) (a : GoAny) : string :=
  match a with
  | GoNil => "<nil>"
  | GoError msg => msg
  | GoString s => s
  | GoInt64 n => itoa n
  | GoUint64 n => itoa n
  | GoFloat64 bits => FormatFloat E bits
  | GoBool b => if b then "true" else "false"
  | GoRawMessage b => if RawMessage_Stringer E then b else fmt_bytes b
  | GoAttrs _ | GoOther _ => Sprint_other E a
  end.

(* ================================================================== *)
(** ** [github.com/fatih/color] *)

Inductive ColorAttribute :=
| FgGreen | FgWhite | FgHiRed | FgHiGreen | FgHiYellow | FgHiBlue
| FgHiCyan | FgHiWhite.

Definition sgr_code (c : ColorAttribute) : Z :=
  match c with
  | FgGreen => 32 | FgWhite => 37
  | FgHiRed => 91 | FgHiGreen => 92 | FgHiYellow => 93 | FgHiBlue => 94
  | FgHiCyan => 96 | FgHiWhite => 97
  end%Z.

(** [color.New(c).Fprintf(w, format, args...)] writes the text alone when
    [color.NoColor] is set, and between the colour's escape sequence and
    the reset sequence otherwise. *)
Definition colored (E : Externals) (c : ColorAttribute) (text : string) : string :=
  if NoColor E then text
  else escape +:+ "[" +:+ itoa (sgr_code c) +:+ "m" +:+ text +:+ escape +:+ "[0m".

(* ================================================================== *)
(** ** Go slices over a store of backing arrays

    A slice is a window [off, off+len) of a backing array, with room up to
    [off+cap).  Arrays live in a store and are named by their index;
    allocation appends to the store.  Two slices over one array share its
    elements: a write through one is seen through the other. *)

Record slice := mkSlice { s_arr : nat; s_off : nat; s_len : nat; s_cap : nat }.

(** The nil slice, and the empty literal [[]T{}]: no capacity, no array
    is ever read or written through it. *)
Definition nilSlice : slice := mkSlice 0 0 0 0.

Section Slices.
Context {A : Type} (zero : A).

Local Abbreviation store := (list (list A)).

(** The slice lies inside an allocated array. *)
Definition slice_ok (st : store) (s : slice) : bool :=
  (s_len s <=? s_cap s)%nat
  && ((s_cap s =? 0)%nat
      || match st !! s_arr s with
         | Some a => (s_off s + s_cap s <=? length a)%nat
         | None => false
         end).

(** The elements [s[0], ..., s[len-1]]. *)
Definition slice_elems (st : store) (s : slice) : option (list A) :=
  if slice_ok st s then
    if (s_cap s =? 0)%nat then Some []
    else
      match st !! s_arr s with
      | Some a => Some (take (s_len s) (drop (s_off s) a))
      | None => None
      end
  else None.

(** [s[:hi:max]]: same array and offset, length [hi], capacity [max];
    a run-time panic unless [hi <= max <= cap(s)]. *)
Definition slice3 (s : slice) (hi max : nat) : option slice :=
  if (hi <=? max)%nat && (max <=? s_cap s)%nat
  then Some (mkSlice (s_arr s) (s_off s) hi max)
  else None.

(** Store [xs] into the array from index [i] on. *)
Fixpoint write_at (a : list A) (i : nat) (xs : list A) : list A :=
  match xs with
  | [] => a
  | x :: xs' => write_at (<[i := x]> a) (S i) xs'
  end.

(** [make([]T, n)]: a fresh array of [n] zero values. *)
Definition make (st : store) (n : nat) : slice * store :=
  (mkSlice (length st) 0 n n, st ++ [replicate n zero]).

(** [copy(dst, src)]: the first [min(len(dst), len(src))] elements of
    [src] are stored into the array of [dst]. *)
Definition copy (st : store) (dst src : slice) : option (nat * store) :=
  if slice_ok st dst then
    match slice_elems st src with
    | Some xs =>
        let n := Nat.min (s_len dst) (s_len src) in
        match st !! s_arr dst with
        | Some a =>
            Some (n, <[s_arr dst := write_at a (s_off dst) (take n xs)]> st)
        | None => Some (n, st)
        end
    | None => None
    end
  else None.

(** [append(s, xs...)].  With room ([len+n <= cap]) the new elements are
    stored into the array of [s], behind its last element, and the
    result shares that array.  Without room a fresh array takes the old
    elements and the new ones; the runtime picks its capacity
    ([newcap], at least the needed length). *)
Definition append (newcap : nat -> nat -> nat) (st : store) (s : slice)
           (xs : list A) : option (slice * store) :=
  if slice_ok st s then
    let need := (s_len s + length xs)%nat in
    if (need <=? s_cap s)%nat then
      match st !! s_arr s with
      | Some a =>
          Some (mkSlice (s_arr s) (s_off s) need (s_cap s),
                <[s_arr s := write_at a (s_off s + s_len s) xs]> st)
      | None => Some (mkSlice (s_arr s) (s_off s) need (s_cap s), st)
      end
    else
      match slice_elems st s with
      | Some old =>
          let c := Nat.max need (newcap (s_cap s) need) in
          Some (mkSlice (length st) 0 need c,
                st ++ [old ++ xs ++ replicate (c - need) zero])
      | None => None
      end
  else None.

End Slices.

(* ================================================================== *)
(** ** The handler and the memory it lives in *)

Definition ptr := nat.

(** The [io.Writer] a handler holds: a destination, or (in the temporary
    handler of [processAttr]) the line buffer itself.  A writer is a
    usable one: its [Write] returns, with an error or without.  The nil
    interface, which [NewColorHandler] would store unchecked and on which
    [Handle] would panic at [h.Writer.Write], is not among them. *)
Inductive Writer := Sink (id : nat) | BufferWriter.

(** A hook is a Go function value, named here by its identity. *)
Definition Hook := nat.

(** [type ColorHandler struct]; [mu] is a [sync.Mutex] held by value: its
    state, locked or not, is part of the struct. *)
Record ColorHandler := mkColorHandler {
  Writer_ : Writer;
  HookFn : option Hook;
  groups : slice;
  attrs : slice;
  mu : bool
}.

(** The heap: backing arrays of [[]string] and of [[]slog.Attr], and the
    handler structs, each named by its index. *)
Record Mem := mkMem {
  strArrays : list (list string);
  attrArrays : list (list Attr);
  handlers : list ColorHandler
}.

(** What a call does to the outside. *)
Inductive Event :=
| EvHook (f : Hook) (ctx : Context) (r : Record)
| EvLock (h : ptr)
| EvWrite (sink : Writer) (data : string)
| EvUnlock (h : ptr).

Record State := mkState { mem : Mem; trace : list Event }.

(** Computations over the state.  A call returns, or it stops: with a
    run-time panic, or blocked for ever in [Lock] on a mutex nobody
    releases.  The state reached is kept in both cases. *)
Inductive Fault := Panic | Deadlock.

Inductive Result (A : Type) : Type :=
| Ok (a : A) (s : State)
| Stopped (f : Fault) (s : State).
Arguments Ok {A} a s.
Arguments Stopped {A} f s.

Definition M (A : Type) : Type := State -> Result A.

Definition ret {A} (a : A) : M A := fun s => Ok a s.

Definition bind {A B} (m : M A) (k : A -> M B) : M B :=
  fun s => match m s with
           | Ok a s' => k a s'
           | Stopped f s' => Stopped f s'
           end.

Definition stop {A} (f : Fault) : M A := fun s => Stopped f s.

Notation "x <- m ;; k" := (bind m (fun x => k))
  (at level 20, m at level 99, k at level 200, only parsing).
Notation "m1 ;;; m2" := (bind m1 (fun _ => m2))
  (at level 100, m2 at level 200, only parsing, right associativity).

(** A failed run-time check (index or slice bounds, nil dereference). *)
Definition lift_opt {A} (o : option A) : M A :=
  fun s => match o with Some a => Ok a s | None => Stopped Panic s end.

Definition emit (e : Event) : M unit :=
  fun s => Ok tt (mkState (mem s) (trace s ++ [e])).

Definition load (h : ptr) : M ColorHandler :=
  fun s => lift_opt (handlers (mem s) !! h) s.

Definition store_handler (h : ptr) (hd : ColorHandler) : M unit :=
  fun s =>
    let m := mem s in
    if (h <? length (handlers m))%nat then
      Ok tt (mkState (mkMem (strArrays m) (attrArrays m)
                            (<[h := hd]> (handlers m))) (trace s))
    else Stopped Panic s.

(** [&ColorHandler{...}]: a fresh struct. *)
Definition new (hd : ColorHandler) : M ptr :=
  fun s =>
    let m := mem s in
    Ok (length (handlers m))
       (mkState (mkMem (strArrays m) (attrArrays m) (handlers m ++ [hd]))
                (trace s)).

Definition with_strs {A}
    (f : list (list string) -> option (A * list (list string))) : M A :=
  fun s =>
    let m := mem s in
    match f (strArrays m) with
    | Some (a, st') =>
        Ok a (mkState (mkMem st' (attrArrays m) (handlers m)) (trace s))
    | None => Stopped Panic s
    end.

Definition with_attrs {A}
    (f : list (list Attr) -> option (A * list (list Attr))) : M A :=
  fun s =>
    let m := mem s in
    match f (attrArrays m) with
    | Some (a, st') =>
        Ok a (mkState (mkMem (strArrays m) st' (handlers m)) (trace s))
    | None => Stopped Panic s
    end.

Definition strings_of (s : slice) : M (list string) :=
  fun st => lift_opt (slice_elems (strArrays (mem st)) s) st.

Definition attrs_of (s : slice) : M (list Attr) :=
  fun st => lift_opt (slice_elems (attrArrays (mem st)) s) st.

(** The struct with its mutex in state [b]. *)
Definition with_mu (hd : ColorHandler) (b : bool) : ColorHandler :=
  mkColorHandler (Writer_ hd) (HookFn hd) (groups hd) (attrs hd) b.

(** Modelled from the spec: the type [buffer] with [newBuffer] and [Free]
    is not among the sources; the spec calls it the output buffer the line
    is assembled in before the single write.  A buffer is the text written
    into it so far; writing into it appends and cannot fail. *)
Definition buffer := string.
Definition newBuffer : buffer := "".

Section Handler.
Variable E : Externals.

(** [color.New(c).Fprintf(buf, ...)] with the formatted text [text]. *)
Definition Fprintf (c : ColorAttribute) (buf : buffer) (text : string) : buffer :=
  buf +:+ colored E c text.

(** [NewColorHandler]: empty groups, empty attributes, no hook. *)
Definition NewColorHandler (w : Writer) : M ptr :=
  new (mkColorHandler w None nilSlice nilSlice false).

(** [WithGroup]: the new handler takes over writer, hook and attribute
    slice; its groups are a fresh array of the receiver's length, filled
    by [copy], then extended by [append]; its mutex is its own. *)
Definition WithGroup (h : ptr) (name : string) : M ptr :=
  hd <- load h ;;
  g0 <- with_strs (fun st => Some (make "" st (s_len (groups hd)))) ;;
  newHandler <- new (mkColorHandler (Writer_ hd) (HookFn hd) g0 (attrs hd) false) ;;
  nh <- load newHandler ;;
  hd' <- load h ;;
  with_strs (fun st => copy st (groups nh) (groups hd')) ;;;
  nh <- load newHandler ;;
  g1 <- with_strs (fun st => append "" (growcap E) st (groups nh) [name]) ;;
  store_handler newHandler
    (mkColorHandler (Writer_ nh) (HookFn nh) g1 (attrs nh) (mu nh)) ;;;
  ret newHandler.

(** [WithAttrs]: the new handler takes over writer, hook and group
    slice; its attributes are [append] applied to the receiver's slice
    cut to its own length ([h.attrs[:len:len]]) and the new ones. *)
Definition WithAttrs (h : ptr) (new_attrs : list Attr) : M ptr :=
  hd <- load h ;;
  s3 <- lift_opt (slice3 (attrs hd) (s_len (attrs hd)) (s_len (attrs hd))) ;;
  a1 <- with_attrs (fun st => append zeroAttr (growcap E) st s3 new_attrs) ;;
  new (mkColorHandler (Writer_ hd) (HookFn hd) (groups hd) a1 false).

(** [Enabled]: every level is logged. *)
Definition Enabled (h : ptr) (ctx : Context) (level : Level) : bool := true.

(** [SetHook]: stores into the receiver's own [HookFn] field. *)
Definition SetHook (h : ptr) (fn : option Hook) : M unit :=
  hd <- load h ;;
  store_handler h
    (mkColorHandler (Writer_ hd) fn (groups hd) (attrs hd) (mu hd)).

(** [isJSON]: [json.Unmarshal] into a [json.RawMessage] succeeds. *)
Definition isJSON (str : string) : bool := Json.Valid str.

(** [formatAnyValue]: an [error] as it is; a string that is JSON as a
    [json.RawMessage], any other string as it is; everything else
    through [json.MarshalIndent] with an indent of two blanks, and as it
    is when that fails. *)
Definition formatAnyValue (value : GoAny) : GoAny :=
  match value with
  | GoError _ => value
  | GoString str => if isJSON str then GoRawMessage str else GoString str
  | _ =>
      match MarshalIndent E value "" "  " with
      | inl jsonBytes => GoString jsonBytes
      | inr _ => value
      end
  end.

(** [formatValue]: by kind; the [default] branch (groups, log valuers)
    returns [v.Any()]. *)
Definition formatValue (v : Value) : GoAny :=
  match v with
  | StringValue s => GoString s
  | Int64Value n => GoInt64 n
  | Uint64Value n => GoUint64 n
  | Float64Value bits => GoFloat64 bits
  | BoolValue b => GoBool b
  | DurationValue d => GoString (Duration_String E d)
  | TimeValue t => GoString (Time_RFC3339 E t)
  | AnyValue a => formatAnyValue a
  | GroupValue l => GoAttrs l
  | LogValuerValue obj => GoOther obj
  end.

(** [processAttr]: a group builds a temporary handler, whose groups are
    the receiver's (cut to their length) with the key appended, and
    hands its attributes to it one by one; any other attribute prints a
    blank, the key, [=] and the [%v] text of the formatted value. *)
Fixpoint processAttr (h : ColorHandler) (buf : buffer) (attr : Attr)
  : M buffer :=
  match attr with
  | MkAttr key (GroupValue groupAttrs) =>
      s3 <- lift_opt (slice3 (groups h) (s_len (groups h)) (s_len (groups h))) ;;
      g1 <- with_strs (fun st => append "" (growcap E) st s3 [key]) ;;
      let groupHandler := mkColorHandler BufferWriter None g1 nilSlice false in
      (fix each (l : list Attr) (buf : buffer) : M buffer :=
         match l with
         | [] => ret buf
         | groupAttr :: l' =>
             buf' <- processAttr groupHandler buf groupAttr ;;
             each l' buf'
         end) groupAttrs buf
  | MkAttr key v =>
      let buf := Fprintf FgHiGreen buf (" " +:+ key +:+ "=") in
      ret (Fprintf FgHiYellow buf (fmt_v E (formatValue v)))
  end.

(** [processAttrs]: the attributes in order. *)
Fixpoint processAttrs (h : ColorHandler) (buf : buffer) (l : list Attr)
  : M buffer :=
  match l with
  | [] => ret buf
  | attr :: l' =>
      buf' <- processAttr h buf attr ;;
      processAttrs h buf' l'
  end.

(** The [switch r.Level]: colour of the tag, colour of the message, tag. *)
Definition level_style (l : Level) : ColorAttribute * ColorAttribute * string :=
  if (l =? LevelDebug)%Z then (FgHiCyan, FgHiCyan, "DBG")
  else if (l =? LevelInfo)%Z then (FgGreen, FgGreen, "INF")
  else if (l =? LevelWarn)%Z then (FgHiYellow, FgHiWhite, "WRN")
  else if (l =? LevelError)%Z then (FgHiRed, FgHiWhite, "ERR")
  else (FgWhite, FgHiWhite, "???").

(** Calling [h.HookFn(ctx, r)]: the call happens; a panic in the hook is
    not recovered. *)
Definition call_hook (f : Hook) (ctx : Context) (r : Record) : M unit :=
  emit (EvHook f ctx r) ;;;
  if Hook_panics E f ctx r then stop Panic else ret tt.

(** [h.mu.Lock()] and the deferred [h.mu.Unlock()]. *)
Definition Lock (h : ptr) : M unit :=
  hd <- load h ;;
  if mu hd then stop Deadlock
  else store_handler h (with_mu hd true) ;;; emit (EvLock h).

Definition Unlock (h : ptr) : M unit :=
  hd <- load h ;;
  store_handler h (with_mu hd false) ;;;
  emit (EvUnlock h).

(** [h.Writer.Write(data)]: the error the writer reports, or nil. *)
Definition Write (w : Writer) (data : string) : M (option string) :=
  emit (EvWrite w data) ;;;
  ret (match w with
       | Sink id => Sink_Write E id data
       | BufferWriter => None
       end).

(** [Handle] up to the lock: the hook, then the line, assembled in a
    buffer of the call's own. *)
Definition Handle_format (h : ptr) (ctx : Context) (r : Record) : M buffer :=
  let buf := newBuffer in
  hd <- load h ;;
  match HookFn hd with
  | Some f => if (LevelError <=? rLevel r)%Z then call_hook f ctx r else ret tt
  | None => ret tt
  end ;;;
  let timeStr := TimeOnly (rTime r) in
  let '(levelColor, msgColor, levelStr) := level_style (rLevel r) in
  let buf := Fprintf FgHiBlue buf ("[" +:+ timeStr +:+ "] ") in
  let buf := Fprintf levelColor buf (pad_right 3 levelStr +:+ " ") in
  hd <- load h ;;
  gs <- strings_of (groups hd) ;;
  let buf := fold_left (fun b group => Fprintf FgHiBlue b (group +:+ ".")) gs buf in
  let buf := Fprintf msgColor buf (rMessage r) in
  hd <- load h ;;
  bound <- attrs_of (attrs hd) ;;
  buf <- processAttrs hd buf bound ;;
  processAttrs hd buf (rAttrs r).

(** [Handle]: the line, then under the handler's mutex the newline and
    one [Write] of the whole buffer; the writer's error is returned. *)
Definition Handle (h : ptr) (ctx : Context) (r : Record) : M (option string) :=
  buf <- Handle_format h ctx r ;;
  Lock h ;;;
  let buf := buf +:+ newline in
  hd <- load h ;;
  err <- Write (Writer_ hd) buf ;;
  Unlock h ;;;
  ret err.

End Handler.

(* ================================================================== *)
(** ** What one call of [Handle] shows to its caller *)

Definition state_of {A} (r : Result A) : State :=
  match r with Ok _ s => s | Stopped _ s => s end.

(** How a call ended: with the error value it returned, or stopped. *)
Inductive Ending := Returned (err : option string) | Failed (f : Fault).

Definition ending_of (r : Result (option string)) : Ending :=
  match r with Ok err _ => Returned err | Stopped f _ => Failed f end.

(** The dispatch output of handler [h] for a record in state [s]: how
    the call ends and the events it adds to the trace. *)
Definition dispatch (E : Externals) (h : ptr) (ctx : Context) (r : Record)
           (s : State) : Ending * list Event :=
  let res := Handle E h ctx r s in
  (ending_of res, drop (length (trace s)) (trace (state_of res))).

(** The lines written by a list of events, in order. *)
Definition written (evs : list Event) : list string :=
  omap (fun e => match e with EvWrite _ data => Some data | _ => None end) evs.

Definition is_hook_event (e : Event) : bool :=
  match e with EvHook _ _ _ => true | _ => false end.

(* ================================================================== *)
(** ** The rendered line, in the words of the specification

    The line as the specification describes it, as a function of the
    handler's group path, its bound attributes and the record: the
    counterpart the code is compared with below. *)
Section Rendering.
Variable E : Externals.

(** One attribute: a group prints its children and nothing for itself;
    any other attribute prints [ key=value]. *)
Fixpoint render_attr (a : Attr) : string :=
  match a with
  | MkAttr _ (GroupValue l) => concat_strings (map render_attr l)
  | MkAttr key v =>
      colored E FgHiGreen (" " +:+ key +:+ "=")
      +:+ colored E FgHiYellow (fmt_v E (formatValue E v))
  end.

Definition render_attrs (l : list Attr) : string :=
  concat_strings (map render_attr l).

Definition level_tag (l : Level) : string := snd (level_style l).
Definition level_color (l : Level) : ColorAttribute := fst (fst (level_style l)).
Definition message_color (l : Level) : ColorAttribute := snd (fst (level_style l)).

(** The group path: every name followed by a dot. *)
Definition render_groups (gs : list string) : string :=
  concat_strings (map (fun g => colored E FgHiBlue (g +:+ ".")) gs).

Definition render_line (gs : list string) (bound : list Attr) (r : Record)
  : string :=
  colored E FgHiBlue ("[" +:+ TimeOnly (rTime r) +:+ "] ")
  +:+ colored E (level_color (rLevel r)) (level_tag (rLevel r) +:+ " ")
  +:+ render_groups gs
  +:+ colored E (message_color (rLevel r)) (rMessage r)
  +:+ render_attrs bound
  +:+ render_attrs (rAttrs r)
  +:+ newline.

(** The same without the final newline: the buffer before the lock. *)
Definition render_body (gs : list string) (bound : list Attr) (r : Record)
  : string :=
  colored E FgHiBlue ("[" +:+ TimeOnly (rTime r) +:+ "] ")
  +:+ colored E (level_color (rLevel r)) (level_tag (rLevel r) +:+ " ")
  +:+ render_groups gs
  +:+ colored E (message_color (rLevel r)) (rMessage r)
  +:+ render_attrs bound
  +:+ render_attrs (rAttrs r).

(** The hook fires for a record when one is set and the level is
    [LevelError] or above. *)
Definition hook_events (hd : ColorHandler) (ctx : Context) (r : Record)
  : list Event :=
  match HookFn hd with
  | Some f => if (LevelError <=? rLevel r)%Z then [EvHook f ctx r] else []
  | None => []
  end.

Definition hook_panicked (hd : ColorHandler) (ctx : Context) (r : Record)
  : bool :=
  match HookFn hd with
  | Some f => (LevelError <=? rLevel r)%Z && Hook_panics E f ctx r
  | None => false
  end.

Definition write_error (w : Writer) (data : string) : option string :=
  match w with Sink id => Sink_Write E id data | BufferWriter => None end.

(** The dispatch output, given what the handler holds: its struct [hd],
    its group path [gs] and its bound attributes [bound]. *)
Definition dispatch_spec (h : ptr) (hd : ColorHandler) (gs : list string)
           (bound : list Attr) (ctx : Context) (r : Record)
  : Ending * list Event :=
  if hook_panicked hd ctx r then (Failed Panic, hook_events hd ctx r)
  else if mu hd then (Failed Deadlock, hook_events hd ctx r)
  else
    let line := render_line gs bound r in
    (Returned (write_error (Writer_ hd) line),
     hook_events hd ctx r
     ++ [EvLock h; EvWrite (Writer_ hd) line; EvUnlock h]).

End Rendering.

(** What handler [h] holds in state [s]: its struct, its group path and
    its bound attributes, read through its slices. *)
Definition holds (s : State) (h : ptr) (hd : ColorHandler)
           (gs : list string) (bound : list Attr) : Prop :=
  handlers (mem s) !! h = Some hd
  /\ slice_elems (strArrays (mem s)) (groups hd) = Some gs
  /\ slice_elems (attrArrays (mem s)) (attrs hd) = Some bound.

(** Nothing that existed is modified: every array and every handler
    struct of [m] is still there in [m'], with the same content. *)
Definition extends (m m' : Mem) : Prop :=
  (exists e, strArrays m' = strArrays m ++ e)
  /\ (exists e, attrArrays m' = attrArrays m ++ e)
  /\ (exists e, handlers m' = handlers m ++ e).

(** [slog.AnyValue], behind [slog.Any]: the basic types get their own
    kind, a slice of attributes becomes a group, only the rest is kept as
    kind [KindAny]. *)
Definition slog_AnyValue (a : GoAny) : Value :=
  match a with
  | GoString s => StringValue s
  | GoInt64 n => Int64Value n
  | GoUint64 n => Uint64Value n
  | GoFloat64 bits => Float64Value bits
  | GoBool b => BoolValue b
  | GoAttrs l => GroupValue l
  | _ => AnyValue a
  end.

(** Double quotes for single ones, to write JSON texts legibly. *)
Fixpoint quoted (s : string) : string :=
  match s with
  | EmptyString => EmptyString
  | String c s' => String (if Ascii.eqb c "'" then dquote else c) (quoted s')
  end.

(* ================================================================== *)
(** ** Concurrent calls of [Handle]

    Goroutines run [Handle] against one memory.  Assembling the line
    touches only the buffer of the call, so it is one step; [Lock] is a
    step that is enabled only while the handler's own mutex is free; the
    [Write] of the sink is not assumed to be atomic ([io.Writer] promises
    nothing of the kind, and a [bytes.Buffer] is not safe for concurrent
    use): it takes the bytes one step at a time; [Unlock] ends the call.
    The sink of this model takes every byte it is handed, as a sink does
    whose [Write] reports no error; how many bytes a sink takes whose
    [Write] fails is not modelled, and what is proved of the bytes that
    arrived is stated for sinks that report none. *)

Inductive Goroutine :=
| GCall (h : ptr) (ctx : Context) (r : Record)
| GWaiting (h : ptr) (buf : buffer)
| GWriting (h : ptr) (w : Writer) (line : string) (rest : list ascii)
| GDone (line : string)
| GStopped.

Record World := mkWorld {
  shared : State;
  goroutines : list Goroutine;
  arrived : list (Writer * ascii)   (* the bytes the sinks took, in order *)
}.

Section Concurrency.
Variable E : Externals.

(** One step of a goroutine; [None] when it cannot move (it waits for
    a mutex, or it has ended). *)
Definition step_goroutine (g : Goroutine) (s : State)
           (out : list (Writer * ascii))
  : option (Goroutine * State * list (Writer * ascii)) :=
  match g with
  | GCall h ctx r =>
      match Handle_format E h ctx r s with
      | Ok buf s' => Some (GWaiting h buf, s', out)
      | Stopped _ s' => Some (GStopped, s', out)
      end
  | GWaiting h buf =>
      match (Lock h ;;; load h) s with
      | Ok hd s' =>
          let line := buf +:+ newline in
          Some (GWriting h (Writer_ hd) line (bytes_of line), s', out)
      | Stopped Deadlock _ => None
      | Stopped Panic s' => Some (GStopped, s', out)
      end
  | GWriting h w line (c :: rest) =>
      Some (GWriting h w line rest, s, out ++ [(w, c)])
  | GWriting h w line [] =>
      match Unlock h s with
      | Ok _ s' => Some (GDone line, s', out)
      | Stopped _ s' => Some (GStopped, s', out)
      end
  | GDone _ | GStopped => None
  end.

(** Goroutine [i] moves. *)
Definition step (i : nat) (w : World) : option World :=
  match goroutines w !! i with
  | Some g =>
      match step_goroutine g (shared w) (arrived w) with
      | Some (g', s', out') =>
          Some (mkWorld s' (<[i := g']> (goroutines w)) out')
      | None => None
      end
  | None => None
  end.

(** A schedule: which goroutine moves next. *)
Fixpoint run (schedule : list nat) (w : World) : option World :=
  match schedule with
  | [] => Some w
  | i :: rest =>
      match step i w with
      | Some w' => run rest w'
      | None => None
      end
  end.

End Concurrency.

(** What a sink holds: the bytes that arrived at it. *)
Definition sink_content (w : Writer) (out : list (Writer * ascii)) : string :=
  string_of_list_ascii
    (omap (fun p => match p, w with
                    | (Sink a, c), Sink b => if (a =? b)%nat then Some c else None
                    | (BufferWriter, c), BufferWriter => Some c
                    | _, _ => None
                    end) out).

Definition line_of (g : Goroutine) : option string :=
  match g with
  | GWriting _ _ line _ | GDone line => Some line
  | _ => None
  end.

(** The lines of the goroutines that have passed the lock. *)
Fixpoint lines_of (gs : list Goroutine) : list string :=
  match gs with
  | [] => []
  | g :: rest =>
      match line_of g with
      | Some line => line :: lines_of rest
      | None => lines_of rest
      end
  end.

Definition all_done (gs : list Goroutine) : bool :=
  forallb (fun g => match g with GDone _ => true | _ => false end) gs.

Definition is_writing (g : Goroutine) : bool :=
  match g with GWriting _ _ _ _ => true | _ => false end.

(** The bytes a goroutine inside [Write] has still to hand over. *)
Definition pending (g : Goroutine) : list ascii :=
  match g with GWriting _ _ _ rest => rest | _ => [] end.

Definition arrived_bytes (w : World) : list ascii := map snd (arrived w).

(** Goroutine [g] is at some stage of the call [h.Handle(ctx, r)], for a
    handler that holds the struct [hd], the group path [gs] and the bound
    attributes [bound]. *)
Definition stage_of (E : Externals) (h : ptr) (hd : ColorHandler)
           (gs : list string) (bound : list Attr)
           (call : Context * Record) (g : Goroutine) : Prop :=
  g = GCall h (fst call) (snd call)
  \/ g = GWaiting h (render_body E gs bound (snd call))
  \/ (exists rest,
         g = GWriting h (Writer_ hd) (render_line E gs bound (snd call)) rest)
  \/ g = GDone (render_line E gs bound (snd call))
  \/ g = GStopped.

(** The state of the mutex matches the goroutines: held, one goroutine
    is inside [Write]; free, none is. *)
Definition lock_matches (b : bool) (l : list Goroutine) : Prop :=
  if b
  then exists i g, l !! i = Some g /\ is_writing g = true
                   /\ forall j g', j <> i -> l !! j = Some g' ->
                                   is_writing g' = false
  else Forall (fun g => is_writing g = false) l.

(** What every schedule preserves when all goroutines dispatch through
    one handler [h], which held [hd], [gs] and [bound] in the memory
    ([sa], [aa], [hs]) they started from.  [b] tells whether the mutex of
    the handler is held; in memory only new arrays have appeared. *)
Definition one_handler_inv (E : Externals) (h : ptr) (hd : ColorHandler)
           (gs : list string) (bound : list Attr)
           (sa : list (list string)) (aa : list (list Attr))
           (hs : list ColorHandler) (calls : list (Context * Record))
           (w : World) : Prop :=
  exists (b : bool) e tr order,
    shared w = mkState (mkMem (sa ++ e) aa (<[h := with_mu hd b]> hs)) tr
    /\ Forall2 (stage_of E h hd gs bound) calls (goroutines w)
    /\ lock_matches b (goroutines w)
    /\ order ≡ₚ lines_of (goroutines w)
    /\ arrived_bytes w ++ concat (map pending (goroutines w))
       = concat (map bytes_of order)
    /\ Forall (fun p => fst p = Writer_ hd) (arrived w).

(** A run of [n] times the same goroutine, and a strict alternation. *)
Fixpoint alternate (n : nat) (i j : nat) : list nat :=
  match n with
  | O => []
  | S n' => i :: j :: alternate n' i j
  end.

(* ================================================================== *)
(** ** A test bench

    The collaborators as the package's tests set them up: colours off
    ([color.NoColor = true]), a sink that takes everything (a
    [bytes.Buffer]), hooks that return, and a runtime that doubles the
    needed capacity when a slice grows.  The printers of floats,
    durations and times are not exercised; [json.MarshalIndent] knows the
    scalars and one struct, object 2, [struct{Name string}{Alice}], whose
    field it puts on a line of its own behind the prefix and the indent;
    it refuses the rest (object 1 is a channel).  [json.RawMessage] has
    its [String] method. *)
Definition testMarshalIndent (v : GoAny) (pfx indent : string) : string + string :=
  match v with
  | GoNil => inl "null"
  | GoBool b => inl (if b then "true" else "false")
  | GoInt64 n | GoUint64 n => inl (itoa n)
  | GoOther 2 =>
      inl ("{" +:+ newline +:+ pfx +:+ indent +:+ quoted "'Name': 'Alice'"
           +:+ newline +:+ pfx +:+ "}")
  | _ => inr "json: unsupported type"
  end.

Definition testEnv : Externals :=
  mkExternals true (fun _ => "") (fun _ => "") (fun _ => "")
              testMarshalIndent (fun _ => "")
              (fun _ need => 2 * need) (fun _ _ => None) (fun _ _ _ => false)
              true.

(** The same with colours on. *)
Definition colorEnv : Externals :=
  mkExternals false (fun _ => "") (fun _ => "") (fun _ => "")
              testMarshalIndent (fun _ => "")
              (fun _ need => 2 * need) (fun _ _ => None) (fun _ _ _ => false)
              true.

Definition emptyState : State := mkState (mkMem [] [] []) [].

(** [time.Date(2026, 2, 8, 12, 30, 45, 0, time.UTC)], the instant of the
    tests. *)
Definition testTime : Time := mkTime 1770553845 0.

(** The same day at 09:05:03 in a location three hours east of UTC
    (06:05:03 UTC): every field of the clock has one digit. *)
Definition earlyTime : Time := mkTime 1770530703 10800.

(** A root handler on sink 0 (handler 0), and [root.WithGroup(x)
    .WithAttrs(service=api)] (handlers 1 and 2): the attribute slice of
    handler 2 has spare capacity. *)
Definition benchState : State :=
  state_of
    ((root <- NewColorHandler (Sink 0) ;;
      h1 <- WithGroup testEnv root "x" ;;
      WithAttrs testEnv h1 [MkAttr "service" (StringValue "api")]) emptyState).

Definition benchHandler : ColorHandler :=
  mkColorHandler (Sink 0) None (mkSlice 1 0 1 2) (mkSlice 0 0 1 2) false.

(** Two goroutines on the test bench, one dispatching through the root
    handler (handler 0), the other through the handler derived from it by
    [WithGroup] (handler 1), both to sink 0; and the same two records
    dispatched through the root handler alone. *)
Definition recordOne : Record := mkRecord testTime LevelInfo "one" [].
Definition recordTwo : Record := mkRecord testTime LevelInfo "two" [].

Definition derivedWorld : World :=
  mkWorld benchState [GCall 0 0 recordOne; GCall 1 0 recordTwo] [].

Definition sameWorld : World :=
  mkWorld benchState [GCall 0 0 recordOne; GCall 0 0 recordTwo] [].

(** Both goroutines assemble their line and take their lock; then they
    write in turns, a byte each; then each releases its lock. *)
Definition tornSchedule : list nat :=
  [0; 1; 0; 1] ++ alternate 19 0 1 ++ [0; 1; 1; 1].

(** The two ways to derive a handler. *)
Inductive Derivation := ByGroup (name : string) | ByAttrs (new_attrs : list Attr).

Definition derive (E : Externals) (d : Derivation) (h : ptr) : M ptr :=
  match d with
  | ByGroup name => WithGroup E h name
  | ByAttrs new_attrs => WithAttrs E h new_attrs
  end.

Definition no_hook_event (evs : list Event) : Prop :=
  Forall (fun e => is_hook_event e = false) evs.

(** Three nested groups on a handler. *)
Definition WithGroup3 (E : Externals) (h : ptr) (a b c : string) : M ptr :=
  h1 <- WithGroup E h a ;;
  h2 <- WithGroup E h1 b ;;
  WithGroup E h2 c.

(** The group prefix [Handle] prints for handler [h] in state [s]. *)
Definition group_prefix (E : Externals) (s : State) (h : ptr) : option string :=
  match handlers (mem s) !! h with
  | Some hd =>
      match slice_elems (strArrays (mem s)) (groups hd) with
      | Some gs => Some (render_groups E gs)
      | None => None
      end
  | None => None
  end.

(* ================================================================== *)
(** ** Chains of derivations and programs over the handler's methods *)

(** [h.WithGroup(..).WithAttrs(..)...]: the derivations of [ds] applied
    one after the other, each to the handler the one before returned. *)
Fixpoint derive_chain (E : Externals) (ds : list Derivation) (h : ptr) : M ptr :=
  match ds with
  | [] => ret h
  | d :: rest => h' <- derive E d h ;; derive_chain E rest h'
  end.

(** The group names of a chain, and its attributes, in the order of the
    calls. *)
Fixpoint chain_groups (ds : list Derivation) : list string :=
  match ds with
  | [] => []
  | ByGroup name :: rest => name :: chain_groups rest
  | ByAttrs _ :: rest => chain_groups rest
  end.

Fixpoint chain_attrs (ds : list Derivation) : list Attr :=
  match ds with
  | [] => []
  | ByGroup _ :: rest => chain_attrs rest
  | ByAttrs new_attrs :: rest => new_attrs ++ chain_attrs rest
  end.

(** The attributes of an attribute that are not groups, through all
    levels of nesting, left to right. *)
Fixpoint leaves (a : Attr) : list Attr :=
  match a with
  | MkAttr _ (GroupValue l) => concat (map leaves l)
  | MkAttr _ _ => [a]
  end.

(** One call of an exported function or method of the package;
    [NewColorHandler] is given a usable writer. *)
Inductive Call :=
| CallNew (w : Writer)
| CallDerive (d : Derivation) (h : ptr)
| CallSetHook (h : ptr) (fn : option Hook)
| CallHandle (h : ptr) (ctx : Context) (r : Record).

Definition call (E : Externals) (c : Call) : M unit :=
  match c with
  | CallNew w => NewColorHandler w ;;; ret tt
  | CallDerive d h => derive E d h ;;; ret tt
  | CallSetHook h fn => SetHook h fn
  | CallHandle h ctx r => Handle E h ctx r ;;; ret tt
  end.

Fixpoint calls (E : Externals) (cs : list Call) : M unit :=
  match cs with
  | [] => ret tt
  | c :: rest => call E c ;;; calls E rest
  end.

(** Every receiver of the program is a handler that exists when it is
    used, [n] handlers existing at the start: [NewColorHandler] and the
    derivations each add one. *)
Fixpoint receivers_exist (n : nat) (cs : list Call) : bool :=
  match cs with
  | [] => true
  | CallNew _ :: rest => receivers_exist (S n) rest
  | CallDerive _ h :: rest => (h <? n)%nat && receivers_exist (S n) rest
  | CallSetHook h _ :: rest => (h <? n)%nat && receivers_exist n rest
  | CallHandle h _ _ :: rest => (h <? n)%nat && receivers_exist n rest
  end.

(** A memory in which every handler can be used: its slices lie inside
    allocated arrays and its mutex is free. *)
Definition well_formed (s : State) : Prop :=
  forall h hd,
    handlers (mem s) !! h = Some hd ->
    mu hd = false /\ exists gs bound, holds s h hd gs bound.

(** The test bench with a sink that refuses every write. *)
Definition failingEnv : Externals :=
  mkExternals true (fun _ => "") (fun _ => "") (fun _ => "")
              testMarshalIndent (fun _ => "")
              (fun _ need => 2 * need) (fun _ _ => Some "disk full")
              (fun _ _ _ => false) true.

(** The header of a line with colours off: clock, tag, blanks. *)
Definition plain_header (r : Record) : string :=
  "[" +:+ TimeOnly (rTime r) +:+ "] " +:+ level_tag (rLevel r) +:+ " ".

(** The number a decimal digit stands for. *)
Definition digit_value (c : ascii) : Z := (Z.of_N (N_of_ascii c) - 48)%Z.

(** Exactly two decimal digits, which read [z]. *)
Definition two_digit_text (s : string) (z : Z) : bool :=
  match s with
  | String a (String b EmptyString) =>
      Json.is_digit a && Json.is_digit b
      && (10 * digit_value a + digit_value b =? z)%Z
  | _ => false
  end.

(** The text [HH:MM:SS] of six characters and two colons. *)
Definition clock_text (h1 h2 m1 m2 s1 s2 : ascii) : string :=
  String h1 (String h2 (String ":" (String m1 (String m2
    (String ":" (String s1 (String s2 EmptyString))))))).

(** The handler of the test bench after [SetHook(7)]. *)
Definition hookedState : State := state_of (SetHook 2 (Some 7) benchState).

Definition hookedHandler : ColorHandler :=
  mkColorHandler (Sink 0) (Some 7) (mkSlice 1 0 1 2) (mkSlice 0 0 1 2) false.

(* ================================================================== *)
(** ** Lemmas on slices *)

Section SliceLemmas.
Context {A : Type} (zero : A).
Implicit Types (st e : list (list A)) (s : slice) (xs a : list A).

Lemma write_at_app pre a xs :
  length xs <= length a ->
  write_at (pre ++ a) (length pre) xs = pre ++ xs ++ drop (length xs) a.
Proof.
  revert pre a; induction xs as [|x xs IH]; intros pre a Hle; simpl in *.
  - by rewrite drop_0.
  - destruct a as [|y a']; simpl in *; [lia|].
    replace (<[length pre := x]> (pre ++ y :: a')) with ((pre ++ [x]) ++ a').
    + replace (S (length pre)) with (length (pre ++ [x]))
        by (rewrite length_app; simpl; lia).
      rewrite IH by lia. by rewrite <- app_assoc.
    + rewrite <- app_assoc. simpl.
      rewrite <- (Nat.add_0_r (length pre)) at 1.
      by rewrite insert_app_r.
Qed.

Lemma write_at_fresh a xs :
  length xs = length a -> write_at a 0 xs = xs.
Proof.
  intros Hlen.
  pose proof (write_at_app [] a xs) as H. simpl in H.
  rewrite H by lia.
  rewrite drop_ge by lia. by rewrite app_nil_r.
Qed.

Lemma slice_elems_ok st s xs :
  slice_elems st s = Some xs -> slice_ok st s = true.
Proof. unfold slice_elems. by destruct (slice_ok st s). Qed.

Lemma slice_ok_len_cap st s : slice_ok st s = true -> s_len s <= s_cap s.
Proof.
  unfold slice_ok. intros H. apply andb_true_iff in H as [H _].
  by apply Nat.leb_le.
Qed.

Lemma slice_elems_length st s xs :
  slice_elems st s = Some xs -> length xs = s_len s.
Proof.
  unfold slice_elems, slice_ok.
  destruct (s_len s <=? s_cap s) eqn:Hlc; cbn [andb orb]; [|done].
  apply Nat.leb_le in Hlc.
  destruct (s_cap s =? 0) eqn:Hc; cbn [andb orb].
  - apply Nat.eqb_eq in Hc. intros [= <-]. simpl. lia.
  - destruct (st !! s_arr s) as [a|]; [|done].
    destruct (s_off s + s_cap s <=? length a) eqn:Hb; [|done].
    apply Nat.leb_le in Hb. intros [= <-].
    rewrite length_take, length_drop. lia.
Qed.

Lemma slice_ok_ext st e s :
  slice_ok st s = true -> slice_ok (st ++ e) s = true.
Proof.
  unfold slice_ok. intros H.
  apply andb_true_iff in H as [-> H]. cbn [andb orb].
  destruct (s_cap s =? 0); [done|]. cbn [andb orb] in *.
  destruct (st !! s_arr s) as [a|] eqn:Ha; [|done].
  by rewrite (lookup_app_l_Some _ _ _ _ Ha).
Qed.

Lemma slice_elems_ext st e s xs :
  slice_elems st s = Some xs -> slice_elems (st ++ e) s = Some xs.
Proof.
  intros H. pose proof (slice_elems_ok _ _ _ H) as Hok.
  unfold slice_elems in *. rewrite Hok in H.
  rewrite (slice_ok_ext _ e _ Hok).
  destruct (s_cap s =? 0); [done|].
  destruct (st !! s_arr s) as [a|] eqn:Ha; [|done].
  by rewrite (lookup_app_l_Some _ _ _ _ Ha).
Qed.

(** [s[:len(s):len(s)]]: the same elements, and no room behind them. *)
Lemma slice3_full st s xs :
  slice_elems st s = Some xs ->
  exists s3, slice3 s (s_len s) (s_len s) = Some s3
             /\ s_cap s3 = s_len s3
             /\ slice_elems st s3 = Some xs.
Proof.
  intros H. pose proof (slice_elems_ok _ _ _ H) as Hok.
  pose proof (slice_ok_len_cap _ _ Hok) as Hlc.
  unfold slice3.
  rewrite (proj2 (Nat.leb_le _ _) (le_n _)), (proj2 (Nat.leb_le _ _) Hlc).
  cbn [andb]. eexists; split; [done|]. split; [done|].
  unfold slice_elems, slice_ok in *. cbn [s_len s_cap s_arr s_off].
  rewrite Nat.leb_refl. cbn [andb orb].
  destruct (s_len s <=? s_cap s); cbn [andb orb] in *; [|done].
  destruct (s_cap s =? 0) eqn:Hc; cbn [andb orb] in *.
  - apply Nat.eqb_eq in Hc. replace (s_len s) with 0 by lia. done.
  - destruct (st !! s_arr s) as [a|]; [|done].
    destruct (s_off s + s_cap s <=? length a) eqn:Hb; [|done].
    apply Nat.leb_le in Hb.
    destruct (s_len s =? 0) eqn:Hl; cbn [andb orb].
    + apply Nat.eqb_eq in Hl. rewrite Hl in H. simpl in H. done.
    + rewrite (proj2 (Nat.leb_le _ _)) by lia. done.
Qed.

(** [append] without room leaves every existing array alone: the result
    lives in a fresh array. *)
Lemma append_grows nc st s xs old :
  slice_elems st s = Some old ->
  s_cap s < s_len s + length xs ->
  exists s' arr,
    append zero nc st s xs = Some (s', st ++ [arr])
    /\ slice_elems (st ++ [arr]) s' = Some (old ++ xs).
Proof.
  intros H Hfull. pose proof (slice_elems_ok _ _ _ H) as Hok.
  pose proof (slice_elems_length _ _ _ H) as Hlen.
  unfold append. rewrite Hok, H.
  rewrite (proj2 (Nat.leb_gt _ _)) by lia.
  eexists _, _; split; [done|].
  set (need := s_len s + length xs).
  set (c := Nat.max need (nc (s_cap s) need)).
  assert (need <= c) by lia.
  unfold slice_elems, slice_ok. cbn [s_len s_cap s_arr s_off].
  rewrite (proj2 (Nat.leb_le _ _)) by done. cbn [andb orb].
  rewrite lookup_app_r by lia. rewrite Nat.sub_diag.
  cbn [lookup list_lookup].
  rewrite !length_app, length_replicate.
  rewrite (proj2 (Nat.leb_le _ _)) by (subst need; lia).
  rewrite orb_true_r.
  destruct (c =? 0) eqn:Hc.
  - apply Nat.eqb_eq in Hc. exfalso. subst need. lia.
  - rewrite drop_0, app_assoc.
    rewrite take_app_length' by (rewrite length_app; subst need; lia).
    done.
Qed.

(** [append] of nothing to a slice without room changes nothing. *)
Lemma append_nothing nc st s old :
  slice_elems st s = Some old ->
  exists s',
    append zero nc st s [] = Some (s', st)
    /\ slice_elems st s' = Some old.
Proof.
  intros H. pose proof (slice_elems_ok _ _ _ H) as Hok.
  pose proof (slice_ok_len_cap _ _ Hok) as Hlc.
  unfold append. rewrite Hok. cbn [length].
  rewrite Nat.add_0_r.
  rewrite (proj2 (Nat.leb_le _ _)) by done.
  assert (mkSlice (s_arr s) (s_off s) (s_len s) (s_cap s) = s) as ->
    by (by destruct s).
  destruct (st !! s_arr s) as [a|] eqn:Ha.
  - rewrite list_insert_id by done. eauto.
  - eauto.
Qed.

End SliceLemmas.

(* ================================================================== *)
(** ** Derivation: [WithGroup] and [WithAttrs] *)

Lemma insert_last {A} (l : list A) (x y : A) :
  <[length l := y]> (l ++ [x]) = l ++ [y].
Proof.
  rewrite insert_app_r_alt by lia. by rewrite Nat.sub_diag.
Qed.

Lemma lookup_last {A} (l : list A) (x : A) : (l ++ [x]) !! length l = Some x.
Proof. by rewrite lookup_app_r, Nat.sub_diag by lia. Qed.

Lemma extends_refl m : extends m m.
Proof. repeat split; exists []; by rewrite app_nil_r. Qed.

Lemma extends_trans m1 m2 m3 : extends m1 m2 -> extends m2 m3 -> extends m1 m3.
Proof.
  intros ([e1 H1] & [e2 H2] & [e3 H3]) ([f1 G1] & [f2 G2] & [f3 G3]).
  repeat split.
  - exists (e1 ++ f1). by rewrite G1, H1, app_assoc.
  - exists (e2 ++ f2). by rewrite G2, H2, app_assoc.
  - exists (e3 ++ f3). by rewrite G3, H3, app_assoc.
Qed.

(** What a handler holds is still there after the memory has grown. *)
Lemma holds_extends s s' h hd gs bound :
  holds s h hd gs bound -> extends (mem s) (mem s') -> holds s' h hd gs bound.
Proof.
  intros (Hh & Hg & Ha) ([e1 H1] & [e2 H2] & [e3 H3]).
  unfold holds. rewrite H1, H2, H3.
  split; [by apply lookup_app_l_Some|].
  split; by apply slice_elems_ext.
Qed.

Section Derivation.
Variable E : Externals.

Lemma WithGroup_spec h name s hd gs bound :
  holds s h hd gs bound ->
  exists s' g1,
    WithGroup E h name s = Ok (length (handlers (mem s))) s'
    /\ trace s' = trace s
    /\ extends (mem s) (mem s')
    /\ handlers (mem s') =
         handlers (mem s)
         ++ [mkColorHandler (Writer_ hd) (HookFn hd) g1 (attrs hd) false]
    /\ holds s' (length (handlers (mem s)))
             (mkColorHandler (Writer_ hd) (HookFn hd) g1 (attrs hd) false)
             (gs ++ [name]) bound.
Proof.
  intros (Hh & Hg & Ha).
  destruct s as [[sa aa hs] tr]. cbn [mem trace strArrays attrArrays handlers] in *.
  pose proof (slice_elems_length _ _ _ Hg) as Hlen.
  set (n := s_len (groups hd)) in *.
  set (g0 := mkSlice (length sa) 0 n n).
  assert (slice_elems (sa ++ [gs]) g0 = Some gs) as Hg0.
  { unfold slice_elems, slice_ok, g0. cbn [s_len s_cap s_arr s_off].
    rewrite Nat.leb_refl, lookup_last. cbn [andb].
    rewrite (proj2 (Nat.leb_le _ _)) by (simpl; lia).
    rewrite orb_true_r.
    destruct (n =? 0) eqn:Hn.
    - apply Nat.eqb_eq in Hn. destruct gs; [done|simpl in *; lia].
    - by rewrite drop_0, take_ge by lia. }
  destruct (append_grows "" (growcap E) (sa ++ [gs]) g0 [name] gs Hg0)
    as (g1 & arr & Happ & Hg1); [simpl; lia|].
  set (nh1 := mkColorHandler (Writer_ hd) (HookFn hd) g1 (attrs hd) false).
  exists (mkState (mkMem ((sa ++ [gs]) ++ [arr]) aa (hs ++ [nh1])) tr), g1.
  split.
  { unfold WithGroup, bind, load, lift_opt, with_strs, new, store_handler, ret, make.
    cbn [mem trace strArrays attrArrays handlers].
    rewrite Hh. cbn [mem trace strArrays attrArrays handlers].
    rewrite lookup_last.
    cbn [mem trace strArrays attrArrays handlers groups].
    rewrite (lookup_app_l_Some _ _ _ _ Hh).
    cbn [mem trace strArrays attrArrays handlers groups].
    fold n. fold g0.
    assert (copy (sa ++ [replicate n ""]) g0 (groups hd)
            = Some (n, sa ++ [gs])) as ->.
    { unfold copy, slice_ok, g0. cbn [s_len s_cap s_arr s_off].
      rewrite Nat.leb_refl, lookup_last. cbn [andb].
      rewrite length_replicate, Nat.leb_refl, orb_true_r.
      rewrite (slice_elems_ext _ _ _ _ Hg). fold n.
      rewrite Nat.min_id.
      rewrite take_ge by lia.
      rewrite write_at_fresh by (rewrite length_replicate; lia).
      by rewrite insert_last. }
    cbn [mem trace strArrays attrArrays handlers groups].
    rewrite lookup_last.
    cbn [mem trace strArrays attrArrays handlers groups
         Writer_ HookFn attrs mu].
    rewrite Happ.
    cbn [mem trace strArrays attrArrays handlers].
    rewrite length_app. cbn [length].
    rewrite (proj2 (Nat.ltb_lt _ _)) by lia.
    by rewrite insert_last. }
  cbn [mem trace strArrays attrArrays handlers].
  split; [done|]. split.
  { repeat split; cbn [strArrays attrArrays handlers].
    - exists ([gs] ++ [arr]). by rewrite app_assoc.
    - exists []. by rewrite app_nil_r.
    - by eexists. }
  split; [done|].
  unfold holds. cbn [mem strArrays attrArrays handlers groups attrs].
  split; [apply lookup_last|]. split; [done|done].
Qed.

Lemma WithAttrs_spec h new_attrs s hd gs bound :
  holds s h hd gs bound ->
  exists s' a1,
    WithAttrs E h new_attrs s = Ok (length (handlers (mem s))) s'
    /\ trace s' = trace s
    /\ extends (mem s) (mem s')
    /\ handlers (mem s') =
         handlers (mem s)
         ++ [mkColorHandler (Writer_ hd) (HookFn hd) (groups hd) a1 false]
    /\ holds s' (length (handlers (mem s)))
             (mkColorHandler (Writer_ hd) (HookFn hd) (groups hd) a1 false)
             gs (bound ++ new_attrs).
Proof.
  intros (Hh & Hg & Ha).
  destruct s as [[sa aa hs] tr]. cbn [mem trace strArrays attrArrays handlers] in *.
  destruct (slice3_full _ _ _ Ha) as (s3 & Hs3 & Hcap & Hel).
  pose proof (slice_elems_length _ _ _ Hel) as Hlen.
  assert (exists a1 aa',
            append zeroAttr (growcap E) aa s3 new_attrs = Some (a1, aa')
            /\ (exists e, aa' = aa ++ e)
            /\ slice_elems aa' a1 = Some (bound ++ new_attrs))
    as (a1 & aa' & Happ & [e He] & Ha1).
  { destruct new_attrs as [|x xs].
    - destruct (append_nothing zeroAttr (growcap E) aa s3 bound Hel)
        as (s' & Happ & Hs').
      exists s', aa. rewrite app_nil_r. split; [done|]. split; [|done].
      exists []. by rewrite app_nil_r.
    - destruct (append_grows zeroAttr (growcap E) aa s3 (x :: xs) bound Hel)
        as (s' & arr & Happ & Hs'); [simpl; lia|].
      exists s', (aa ++ [arr]). split; [done|]. split; [by eexists|done]. }
  set (nh := mkColorHandler (Writer_ hd) (HookFn hd) (groups hd) a1 false).
  exists (mkState (mkMem sa aa' (hs ++ [nh])) tr), a1.
  split.
  { unfold WithAttrs, bind, load, lift_opt, with_attrs, new, ret.
    cbn [mem trace strArrays attrArrays handlers].
    rewrite Hh, Hs3. cbn [mem trace strArrays attrArrays handlers].
    by rewrite Happ. }
  cbn [mem trace strArrays attrArrays handlers].
  split; [done|]. split.
  { repeat split; cbn [strArrays attrArrays handlers].
    - exists []. by rewrite app_nil_r.
    - by exists e.
    - by eexists. }
  split; [done|].
  unfold holds. cbn [mem strArrays attrArrays handlers groups attrs].
  split; [apply lookup_last|]. split; [done|done].
Qed.

End Derivation.

(* ================================================================== *)
(** ** The code renders the line of the specification *)

Lemma sapp_cons (x : ascii) (a b : string) :
  String x a +:+ b = String x (a +:+ b).
Proof. reflexivity. Qed.

Lemma sapp_nil_l (a : string) : "" +:+ a = a.
Proof. reflexivity. Qed.

Lemma sapp_assoc (a b c : string) : (a +:+ b) +:+ c = a +:+ (b +:+ c).
Proof.
  induction a as [|x a IH]; [done|]. by rewrite !sapp_cons, IH.
Qed.

Lemma sapp_nil_r (a : string) : a +:+ "" = a.
Proof. induction a as [|x a IH]; [done|]. by rewrite sapp_cons, IH. Qed.

(** Induction over an attribute and, for a group, over its children. *)
Section AttrInduction.
Variable P : Attr -> Prop.
Hypothesis Hgroup : forall key l, Forall P l -> P (MkAttr key (GroupValue l)).
Hypothesis Hleaf :
  forall key v, Value_Kind v <> KindGroup -> P (MkAttr key v).

Lemma Attr_nested_ind (a : Attr) : P a.
Proof.
  revert a. fix IHattr 1. intros [key v].
  destruct v as [ | | | | | | |l| | ];
    try (apply Hleaf; discriminate).
  apply Hgroup.
  induction l as [|x l IHl]; constructor.
  - apply IHattr.
  - apply IHl.
Qed.
End AttrInduction.

Section Refinement.
Variable E : Externals.

Lemma processAttr_leaf h buf key v s :
  Value_Kind v <> KindGroup ->
  processAttr E h buf (MkAttr key v) s
  = Ok (buf +:+ render_attr E (MkAttr key v)) s.
Proof.
  intros Hk. destruct v; try (simpl in Hk; congruence); simpl;
    unfold ret, Fprintf; by rewrite sapp_assoc.
Qed.

(** [processAttr] appends the rendering of the attribute; in memory it
    only allocates. *)
Lemma processAttr_spec attr :
  forall h buf s gs,
    slice_elems (strArrays (mem s)) (groups h) = Some gs ->
    exists e,
      processAttr E h buf attr s
      = Ok (buf +:+ render_attr E attr)
           (mkState (mkMem (strArrays (mem s) ++ e) (attrArrays (mem s))
                           (handlers (mem s))) (trace s)).
Proof.
  induction attr as [key l IH|key v Hk] using Attr_nested_ind;
    intros h buf s gs Hg.
  - destruct s as [[sa aa hs] tr].
    cbn [mem trace strArrays attrArrays handlers] in *.
    destruct (slice3_full _ _ _ Hg) as (s3 & Hs3 & Hcap & Hel).
    destruct (append_grows "" (growcap E) sa s3 [key] gs Hel)
      as (g1 & arr & Happ & Hg1); [simpl; lia|].
    cbn [processAttr]. unfold bind at 1. unfold lift_opt. rewrite Hs3.
    unfold bind at 1. unfold with_strs.
    cbn [mem trace strArrays attrArrays handlers]. rewrite Happ.
    set (gh := mkColorHandler BufferWriter None g1 nilSlice false).
    assert (forall buf0 e0,
               exists e,
                 (fix each (l0 : list Attr) (buf1 : buffer) {struct l0} : M buffer :=
                    match l0 with
                    | [] => ret buf1
                    | groupAttr :: l' =>
                        bind (processAttr E gh buf1 groupAttr)
                             (fun buf' => each l' buf')
                    end) l buf0
                   (mkState (mkMem ((sa ++ [arr]) ++ e0) aa hs) tr)
                 = Ok (buf0 +:+ concat_strings (map (render_attr E) l))
                      (mkState (mkMem ((sa ++ [arr]) ++ e) aa hs) tr)) as Hloop.
    { clear Happ Hs3. induction IH as [|x l Hx _ IHl]; intros buf0 e0.
      - exists e0. unfold ret. simpl. by rewrite sapp_nil_r.
      - unfold bind at 1.
        destruct (Hx gh buf0 (mkState (mkMem ((sa ++ [arr]) ++ e0) aa hs) tr)
                     (gs ++ [key])) as [e1 ->].
        { cbn [mem strArrays groups gh]. by apply slice_elems_ext. }
        cbn [mem trace strArrays attrArrays handlers].
        rewrite <- app_assoc.
        destruct (IHl (buf0 +:+ render_attr E x) (e0 ++ e1)) as [e2 ->].
        exists e2. simpl. by rewrite sapp_assoc. }
    destruct (Hloop buf []) as [e He]. rewrite app_nil_r in He.
    exists ([arr] ++ e). rewrite app_assoc.
    rewrite He. done.
  - exists []. rewrite app_nil_r. destruct s as [[sa aa hs] tr].
    by apply processAttr_leaf.
Qed.

Lemma processAttrs_spec l :
  forall h buf s gs,
    slice_elems (strArrays (mem s)) (groups h) = Some gs ->
    exists e,
      processAttrs E h buf l s
      = Ok (buf +:+ render_attrs E l)
           (mkState (mkMem (strArrays (mem s) ++ e) (attrArrays (mem s))
                           (handlers (mem s))) (trace s)).
Proof.
  induction l as [|a l IH]; intros h buf s gs Hg.
  - exists []. destruct s as [[sa aa hs] tr]. simpl.
    unfold ret, render_attrs. simpl. by rewrite sapp_nil_r, app_nil_r.
  - cbn [processAttrs]. unfold bind at 1.
    destruct (processAttr_spec a h buf s gs Hg) as [e1 ->].
    edestruct (IH h (buf +:+ render_attr E a)
                 (mkState (mkMem (strArrays (mem s) ++ e1) (attrArrays (mem s))
                                 (handlers (mem s))) (trace s)) gs) as [e2 ->].
    { cbn [mem strArrays]. by apply slice_elems_ext. }
    cbn [mem trace strArrays attrArrays handlers].
    exists (e1 ++ e2). rewrite app_assoc.
    unfold render_attrs. simpl. by rewrite sapp_assoc.
Qed.

End Refinement.

Section Dispatch.
Variable E : Externals.

Lemma render_line_body gs bound r :
  render_body E gs bound r +:+ newline = render_line E gs bound r.
Proof. unfold render_body, render_line. by rewrite !sapp_assoc. Qed.

Lemma fold_groups gs : forall buf,
  fold_left (fun b group => Fprintf E FgHiBlue b (group +:+ ".")) gs buf
  = buf +:+ render_groups E gs.
Proof.
  induction gs as [|g gs IH]; intros buf; simpl.
  - by rewrite sapp_nil_r.
  - rewrite IH. unfold Fprintf, render_groups. simpl.
    by rewrite sapp_assoc.
Qed.

Lemma level_tag_padded l : pad_right 3 (level_tag l) = level_tag l.
Proof.
  unfold level_tag, level_style.
  repeat (match goal with |- context [if ?b then _ else _] => destruct b end);
    reflexivity.
Qed.

(** [Handle] up to the lock: the hook if it is due, then the line. *)
Lemma Handle_format_spec h ctx r s hd gs bound :
  holds s h hd gs bound ->
  exists e,
    Handle_format E h ctx r s
    = if hook_panicked E hd ctx r
      then Stopped Panic (mkState (mem s) (trace s ++ hook_events hd ctx r))
      else Ok (render_body E gs bound r)
              (mkState (mkMem (strArrays (mem s) ++ e) (attrArrays (mem s))
                              (handlers (mem s)))
                       (trace s ++ hook_events hd ctx r)).
Proof.
  intros (Hh & Hg & Ha).
  destruct s as [[sa aa hs] tr].
  cbn [mem trace strArrays attrArrays handlers] in *.
  unfold Handle_format.
  unfold bind at 1. unfold load at 1, lift_opt.
  cbn [mem handlers]. rewrite Hh.
  unfold bind at 1.
  assert (exists tr',
    tr' = tr ++ hook_events hd ctx r /\
    match HookFn hd with
    | Some f => if (LevelError <=? rLevel r)%Z then call_hook E f ctx r else ret tt
    | None => ret tt
    end (mkState (mkMem sa aa hs) tr)
    = if hook_panicked E hd ctx r
      then Stopped Panic (mkState (mkMem sa aa hs) tr')
      else Ok tt (mkState (mkMem sa aa hs) tr')) as (tr' & Htr & ->).
  { eexists; split; [reflexivity|].
    unfold hook_panicked, hook_events.
    destruct (HookFn hd) as [f|]; [|by unfold ret; rewrite app_nil_r].
    destruct (LevelError <=? rLevel r)%Z; cbn [andb];
      [|by unfold ret; rewrite app_nil_r].
    unfold call_hook, bind, emit, stop, ret.
    cbn [mem trace]. by destruct (Hook_panics E f ctx r). }
  rewrite <- Htr.
  destruct (hook_panicked E hd ctx r); [by exists []|].
  unfold render_body, level_tag, level_color, message_color.
  destruct (level_style (rLevel r)) as [[levelColor msgColor] levelStr]
    eqn:Hstyle.
  cbn [fst snd].
  unfold bind at 1. unfold load at 1, lift_opt. cbn [mem handlers]. rewrite Hh.
  unfold bind at 1. unfold strings_of, lift_opt.
  cbn [mem strArrays]. rewrite Hg.
  unfold bind at 1. unfold load at 1, lift_opt. cbn [mem handlers]. rewrite Hh.
  unfold bind at 1. unfold attrs_of, lift_opt.
  cbn [mem attrArrays]. rewrite Ha.
  unfold bind at 1.
  edestruct (processAttrs_spec E bound hd) as [e1 ->];
    [cbn [mem strArrays]; exact Hg|].
  cbn [mem trace strArrays attrArrays handlers].
  edestruct (processAttrs_spec E (rAttrs r) hd) as [e2 ->];
    [cbn [mem strArrays]; by apply slice_elems_ext|].
  cbn [mem trace strArrays attrArrays handlers].
  exists (e1 ++ e2). rewrite app_assoc.
  f_equal.
  rewrite fold_groups. unfold Fprintf, newBuffer.
  assert (pad_right 3 levelStr = levelStr) as ->.
  { pose proof (level_tag_padded (rLevel r)) as Hp.
    unfold level_tag in Hp. by rewrite Hstyle in Hp. }
  rewrite sapp_nil_l. by rewrite !sapp_assoc.
Qed.

Lemma with_mu_same hd : with_mu hd (mu hd) = hd.
Proof. by destruct hd. Qed.

Lemma with_mu_twice hd b c : with_mu (with_mu hd b) c = with_mu hd c.
Proof. done. Qed.

Lemma bind_Ok {A B} (m : M A) (k : A -> M B) s a s' :
  m s = Ok a s' -> bind m k s = k a s'.
Proof. unfold bind. by intros ->. Qed.

Lemma bind_Stopped {A B} (m : M A) (k : A -> M B) s f s' :
  m s = Stopped f s' -> bind m k s = Stopped f s'.
Proof. unfold bind. by intros ->. Qed.

Lemma load_Ok h s hd : handlers (mem s) !! h = Some hd -> load h s = Ok hd s.
Proof. unfold load, lift_opt. by intros ->. Qed.

Lemma store_handler_Ok h hd sa aa hs tr :
  h < length hs ->
  store_handler h hd (mkState (mkMem sa aa hs) tr)
  = Ok tt (mkState (mkMem sa aa (<[h := hd]> hs)) tr).
Proof.
  intros Hlt. unfold store_handler. cbn [mem handlers].
  by rewrite (proj2 (Nat.ltb_lt _ _) Hlt).
Qed.

Lemma Lock_free h hd sa aa hs tr :
  hs !! h = Some hd -> mu hd = false ->
  Lock h (mkState (mkMem sa aa hs) tr)
  = Ok tt (mkState (mkMem sa aa (<[h := with_mu hd true]> hs))
                   (tr ++ [EvLock h])).
Proof.
  intros Hh Hmu. unfold Lock.
  rewrite (bind_Ok _ _ _ hd _ (load_Ok h (mkState (mkMem sa aa hs) tr) hd Hh)).
  rewrite Hmu.
  erewrite bind_Ok
    by (apply store_handler_Ok; apply lookup_lt_is_Some; eauto).
  done.
Qed.

Lemma Lock_held h hd s :
  handlers (mem s) !! h = Some hd -> mu hd = true ->
  Lock h s = Stopped Deadlock s.
Proof.
  intros Hh Hmu. unfold Lock.
  rewrite (bind_Ok _ _ _ hd _ (load_Ok h s hd Hh)). by rewrite Hmu.
Qed.

Lemma Unlock_Ok h hd sa aa hs tr :
  hs !! h = Some hd ->
  Unlock h (mkState (mkMem sa aa hs) tr)
  = Ok tt (mkState (mkMem sa aa (<[h := with_mu hd false]> hs))
                   (tr ++ [EvUnlock h])).
Proof.
  intros Hh. unfold Unlock.
  rewrite (bind_Ok _ _ _ hd _ (load_Ok h (mkState (mkMem sa aa hs) tr) hd Hh)).
  erewrite bind_Ok
    by (apply store_handler_Ok; apply lookup_lt_is_Some; eauto).
  done.
Qed.

Lemma Write_Ok w data m tr :
  Write E w data (mkState m tr)
  = Ok (write_error E w data) (mkState m (tr ++ [EvWrite w data])).
Proof. reflexivity. Qed.

(** A call that returns: the events, the error of the sink, and a
    memory in which only new arrays have appeared. *)
Lemma Handle_returns h ctx r s hd gs bound :
  holds s h hd gs bound ->
  hook_panicked E hd ctx r = false ->
  mu hd = false ->
  exists e,
    Handle E h ctx r s
    = Ok (write_error E (Writer_ hd) (render_line E gs bound r))
         (mkState (mkMem (strArrays (mem s) ++ e) (attrArrays (mem s))
                         (handlers (mem s)))
                  (trace s ++ hook_events hd ctx r
                   ++ [EvLock h;
                       EvWrite (Writer_ hd) (render_line E gs bound r);
                       EvUnlock h])).
Proof.
  intros Hholds Hp Hmu.
  destruct (Handle_format_spec h ctx r s hd gs bound Hholds) as [e Hf].
  rewrite Hp in Hf. destruct Hholds as (Hh & Hg & Ha).
  exists e. unfold Handle. rewrite (bind_Ok _ _ _ _ _ Hf).
  assert (h < length (handlers (mem s))) as Hlt
    by (apply lookup_lt_is_Some; eauto).
  destruct s as [[sa aa hs] tr].
  cbn [mem trace strArrays attrArrays handlers] in *.
  rewrite (bind_Ok _ _ _ _ _ (Lock_free h hd _ _ _ _ Hh Hmu)).
  erewrite bind_Ok
    by (apply load_Ok; cbn [mem handlers];
        by apply list_lookup_insert_eq).
  cbv zeta.
  rewrite (bind_Ok _ _ _ _ _ (Write_Ok _ _ _ _)).
  erewrite bind_Ok
    by (apply Unlock_Ok; by apply list_lookup_insert_eq).
  unfold ret. rewrite list_insert_insert_eq, with_mu_twice.
  rewrite <- Hmu at 1. rewrite with_mu_same.
  rewrite list_insert_id by done.
  rewrite render_line_body.
  unfold write_error. cbn [Writer_ with_mu].
  by rewrite <- !app_assoc.
Qed.

(** The dispatch output depends only on what the handler holds. *)
Lemma dispatch_holds h ctx r s hd gs bound :
  holds s h hd gs bound ->
  dispatch E h ctx r s = dispatch_spec E h hd gs bound ctx r.
Proof.
  intros Hholds. unfold dispatch, dispatch_spec.
  destruct (hook_panicked E hd ctx r) eqn:Hp.
  - destruct (Handle_format_spec h ctx r s hd gs bound Hholds) as [e Hf].
    rewrite Hp in Hf. unfold Handle. rewrite (bind_Stopped _ _ _ _ _ Hf).
    cbn [ending_of state_of trace]. by rewrite drop_app_length.
  - destruct (mu hd) eqn:Hmu.
    + destruct (Handle_format_spec h ctx r s hd gs bound Hholds) as [e Hf].
      rewrite Hp in Hf. destruct Hholds as (Hh & Hg & Ha).
      unfold Handle. rewrite (bind_Ok _ _ _ _ _ Hf).
      erewrite bind_Stopped by (eapply Lock_held; eauto).
      cbn [ending_of state_of trace]. by rewrite drop_app_length.
    + destruct (Handle_returns h ctx r s hd gs bound Hholds Hp Hmu) as [e ->].
      cbn [ending_of state_of trace]. by rewrite drop_app_length.
Qed.

End Dispatch.

(* ================================================================== *)
(** ** Isolation under derivation *)

(** The naive [append(h.attrs, attrs...)], without the cut to
    [h.attrs[:len:len]], is what the handler must not do: with spare
    capacity two derivations from one handler would write the same array
    cell, and the first derived slice would show the second's attribute. *)
Example append_with_room_is_shared :
  let st := [[MkAttr "service" (StringValue "api"); zeroAttr]] in
  let s := mkSlice 0 0 1 2 in
  exists s1 st1 s2 st2,
    append zeroAttr (fun _ n => 2 * n) st s [MkAttr "a" (BoolValue true)]
      = Some (s1, st1)
    /\ append zeroAttr (fun _ n => 2 * n) st1 s [MkAttr "b" (BoolValue false)]
      = Some (s2, st2)
    /\ slice_elems st1 s1
       = Some [MkAttr "service" (StringValue "api"); MkAttr "a" (BoolValue true)]
    /\ slice_elems st2 s1
       = Some [MkAttr "service" (StringValue "api"); MkAttr "b" (BoolValue false)].
Proof. repeat eexists. Qed.

(** C1. For every handler H, deriving through [H.WithGroup(g)] or
    [H.WithAttrs(a)] does not change H: both calls return, every array and
    every handler struct that existed is unmodified (whatever the spare
    capacity of H's slices), H holds the same struct, group path and
    bound attributes as before, and the dispatch output of H for any
    record is the one it was before the derivation. *)
Theorem C1_derivation_leaves_receiver_unchanged
    (E : Externals) (h : ptr) (s : State) (hd : ColorHandler)
    (gs : list string) (bound : list Attr) (g : string) (a : list Attr) :
  holds s h hd gs bound ->
  (exists h2 s2,
      WithGroup E h g s = Ok h2 s2
      /\ extends (mem s) (mem s2)
      /\ holds s2 h hd gs bound
      /\ forall ctx r, dispatch E h ctx r s2 = dispatch E h ctx r s)
  /\ (exists h3 s3,
      WithAttrs E h a s = Ok h3 s3
      /\ extends (mem s) (mem s3)
      /\ holds s3 h hd gs bound
      /\ forall ctx r, dispatch E h ctx r s3 = dispatch E h ctx r s).
Proof.
  intros Hholds. split.
  - destruct (WithGroup_spec E h g s hd gs bound Hholds)
      as (s2 & g1 & Hrun & _ & Hext & _ & _).
    exists (length (handlers (mem s))), s2.
    pose proof (holds_extends _ _ _ _ _ _ Hholds Hext) as Hholds2.
    split; [done|]. split; [done|]. split; [done|].
    intros ctx r.
    by rewrite (dispatch_holds E h ctx r s2 hd gs bound Hholds2),
               (dispatch_holds E h ctx r s hd gs bound Hholds).
  - destruct (WithAttrs_spec E h a s hd gs bound Hholds)
      as (s3 & a1 & Hrun & _ & Hext & _ & _).
    exists (length (handlers (mem s))), s3.
    pose proof (holds_extends _ _ _ _ _ _ Hholds Hext) as Hholds3.
    split; [done|]. split; [done|]. split; [done|].
    intros ctx r.
    by rewrite (dispatch_holds E h ctx r s3 hd gs bound Hholds3),
               (dispatch_holds E h ctx r s hd gs bound Hholds).
Qed.

(** The handler of the test bench, whose attribute slice has room for one
    more element. *)
Lemma C1_witness :
  holds benchState 2 benchHandler ["x"] [MkAttr "service" (StringValue "api")]
  /\ (exists h3 s3,
         WithAttrs testEnv 2 [MkAttr "extra" (StringValue "val")] benchState
         = Ok h3 s3
         /\ extends (mem benchState) (mem s3)
         /\ holds s3 2 benchHandler ["x"] [MkAttr "service" (StringValue "api")]
         /\ forall ctx r,
             dispatch testEnv 2 ctx r s3 = dispatch testEnv 2 ctx r benchState).
Proof.
  assert (holds benchState 2 benchHandler ["x"]
                [MkAttr "service" (StringValue "api")]) as H
    by (repeat split; vm_compute; reflexivity).
  split; [exact H|].
  exact (proj2 (C1_derivation_leaves_receiver_unchanged
                  testEnv 2 benchState benchHandler ["x"]
                  [MkAttr "service" (StringValue "api")] "g"
                  [MkAttr "extra" (StringValue "val")] H)).
Defined.

(* ================================================================== *)
(** ** The hook *)

Lemma SetHook_spec h fn sa aa hs tr hd :
  hs !! h = Some hd ->
  SetHook h fn (mkState (mkMem sa aa hs) tr)
  = Ok tt (mkState (mkMem sa aa
                          (<[h := mkColorHandler (Writer_ hd) fn (groups hd)
                                                 (attrs hd) (mu hd)]> hs)) tr).
Proof.
  intros Hh. unfold SetHook.
  rewrite (bind_Ok _ _ _ hd _ (load_Ok h (mkState (mkMem sa aa hs) tr) hd Hh)).
  apply store_handler_Ok. apply lookup_lt_is_Some. eauto.
Qed.

(** [SetHook] on one handler leaves what another handler holds. *)
Lemma SetHook_other h fn s hd gs bound h' hd' gs' bound' :
  holds s h hd gs bound -> holds s h' hd' gs' bound' -> h <> h' ->
  exists s',
    SetHook h fn s = Ok tt s' /\ holds s' h' hd' gs' bound'.
Proof.
  intros (Hh & _) (Hh' & Hg' & Ha') Hne.
  destruct s as [[sa aa hs] tr]. cbn [mem handlers strArrays attrArrays] in *.
  eexists. split; [by apply SetHook_spec|].
  unfold holds. cbn [mem handlers strArrays attrArrays].
  by rewrite list_lookup_insert_ne.
Qed.

Lemma hook_events_no_hook hd ctx r :
  HookFn hd = None -> hook_events hd ctx r = [].
Proof. unfold hook_events. by intros ->. Qed.

Lemma hook_events_below_error hd ctx r :
  (rLevel r < LevelError)%Z -> hook_events hd ctx r = [].
Proof.
  intros Hlt. unfold hook_events. destruct (HookFn hd); [|done].
  by rewrite (proj2 (Z.leb_gt _ _) Hlt).
Qed.

Lemma hook_events_fired hd ctx r f :
  HookFn hd = Some f -> (LevelError <= rLevel r)%Z ->
  hook_events hd ctx r = [EvHook f ctx r].
Proof.
  intros Hf Hle. unfold hook_events. rewrite Hf.
  by rewrite (proj2 (Z.leb_le _ _) Hle).
Qed.

(** The events of a dispatch: the hook events first, then no more hook
    events. *)
Lemma dispatch_spec_events E h hd gs bound ctx r :
  exists rest,
    snd (dispatch_spec E h hd gs bound ctx r) = hook_events hd ctx r ++ rest
    /\ no_hook_event rest.
Proof.
  unfold dispatch_spec.
  destruct (hook_panicked E hd ctx r);
    [exists []; split; [by rewrite app_nil_r|constructor]|].
  destruct (mu hd);
    [exists []; split; [by rewrite app_nil_r|constructor]|].
  eexists; split; [reflexivity|]. by repeat constructor.
Qed.

(** C7. During dispatch the hook is invoked if and only if one is set and
    the level of the record is [LevelError] or above: then the call of the
    hook, with the context and the record, is the first event of the
    dispatch, before the lock and the write, and the only hook call;
    otherwise, in particular for Debug, Info and Warn records, no hook is
    called.  A hook that panics ends the dispatch before anything is
    locked or written.  Without a hook a dispatch on a free handler
    returns: an Error-level record is written like any other. *)
Theorem C7_hook_gating
    (E : Externals) (h : ptr) (ctx : Context) (r : Record) (s : State)
    (hd : ColorHandler) (gs : list string) (bound : list Attr) :
  holds s h hd gs bound ->
  let out := dispatch E h ctx r s in
  (forall f, HookFn hd = Some f -> (LevelError <= rLevel r)%Z ->
             exists rest, snd out = EvHook f ctx r :: rest /\ no_hook_event rest)
  /\ (HookFn hd = None \/ (rLevel r < LevelError)%Z -> no_hook_event (snd out))
  /\ (rLevel r = LevelDebug \/ rLevel r = LevelInfo \/ rLevel r = LevelWarn ->
      no_hook_event (snd out))
  /\ (forall f, HookFn hd = Some f -> (LevelError <= rLevel r)%Z ->
                 Hook_panics E f ctx r = true ->
                 out = (Failed Panic, [EvHook f ctx r]))
  /\ (HookFn hd = None -> mu hd = false ->
      out = (Returned (write_error E (Writer_ hd) (render_line E gs bound r)),
             [EvLock h; EvWrite (Writer_ hd) (render_line E gs bound r);
              EvUnlock h])).
Proof.
  intros Hholds out. subst out.
  rewrite (dispatch_holds E h ctx r s hd gs bound Hholds).
  destruct (dispatch_spec_events E h hd gs bound ctx r) as (rest & Hev & Hrest).
  assert (HookFn hd = None \/ (rLevel r < LevelError)%Z ->
          no_hook_event (snd (dispatch_spec E h hd gs bound ctx r))) as Hnone.
  { intros [Hn|Hlt]; rewrite Hev.
    - by rewrite hook_events_no_hook.
    - by rewrite hook_events_below_error. }
  split; [|split; [|split; [|split]]].
  - intros f Hf Hle. exists rest. split; [|done].
    by rewrite Hev, (hook_events_fired hd ctx r f Hf Hle).
  - exact Hnone.
  - intros Hl. apply Hnone. right.
    unfold LevelError, LevelDebug, LevelInfo, LevelWarn in *. lia.
  - intros f Hf Hle Hpanic. unfold dispatch_spec, hook_panicked.
    rewrite Hf, Hpanic, (proj2 (Z.leb_le _ _) Hle). cbn [andb].
    by rewrite (hook_events_fired hd ctx r f Hf Hle).
  - intros Hn Hmu. unfold dispatch_spec, hook_panicked.
    by rewrite Hn, Hmu, (hook_events_no_hook hd ctx r Hn).
Qed.

(** The handler of the test bench after [SetHook(7)]: an Error record
    calls hook 7 first, with the context and the record, and no other
    hook; an Info record calls none.  On the same handler before the
    hook was set, the Error record is written like any other and the
    call returns. *)
Lemma C7_witness :
  let broke := mkRecord testTime LevelError "broke" [] in
  let fine := mkRecord testTime LevelInfo "fine" [] in
  holds hookedState 2 hookedHandler ["x"] [MkAttr "service" (StringValue "api")]
  /\ holds benchState 2 benchHandler ["x"] [MkAttr "service" (StringValue "api")]
  /\ (exists rest,
         snd (dispatch testEnv 2 0 broke hookedState) = EvHook 7 0 broke :: rest
         /\ no_hook_event rest)
  /\ no_hook_event (snd (dispatch testEnv 2 0 fine hookedState))
  /\ dispatch testEnv 2 0 broke benchState
     = (Returned None,
        [EvLock 2;
         EvWrite (Sink 0) ("[12:30:45] ERR x.broke service=api" +:+ newline);
         EvUnlock 2]).
Proof.
  intros broke fine.
  assert (holds hookedState 2 hookedHandler ["x"]
                [MkAttr "service" (StringValue "api")]) as Hhooked
    by (repeat split; vm_compute; reflexivity).
  assert (holds benchState 2 benchHandler ["x"]
                [MkAttr "service" (StringValue "api")]) as Hbench
    by (repeat split; vm_compute; reflexivity).
  split; [exact Hhooked|]. split; [exact Hbench|]. split; [|split].
  - exact (proj1 (C7_hook_gating testEnv 2 0 broke hookedState hookedHandler
                    ["x"] [MkAttr "service" (StringValue "api")] Hhooked)
                 7 eq_refl (Z.le_refl 8)).
  - exact (proj1 (proj2 (proj2
             (C7_hook_gating testEnv 2 0 fine hookedState hookedHandler
                ["x"] [MkAttr "service" (StringValue "api")] Hhooked)))
                 (or_intror (or_introl eq_refl))).
  - exact (proj2 (proj2 (proj2 (proj2
             (C7_hook_gating testEnv 2 0 broke benchState benchHandler
                ["x"] [MkAttr "service" (StringValue "api")] Hbench))))
                 eq_refl eq_refl).
Defined.

(** C10. The hook is copied when a handler is derived: the derived
    handler H2 is a struct of its own that starts with the hook H has at
    that moment; [H.SetHook(f)] afterwards leaves everything H2 holds, its
    hook included, and the dispatch output of H2; so a hook set on a
    hook-less H after the derivation is never called for a record
    dispatched through H2.  Conversely [H2.SetHook(f)] leaves H. *)
Theorem C10_hook_copied_at_derivation
    (E : Externals) (h : ptr) (s : State) (hd : ColorHandler)
    (gs : list string) (bound : list Attr) (d : Derivation) (f : option Hook) :
  holds s h hd gs bound ->
  exists h2 s2 hd2 gs2 bound2,
    derive E d h s = Ok h2 s2
    /\ h2 <> h
    /\ holds s2 h hd gs bound
    /\ holds s2 h2 hd2 gs2 bound2
    /\ HookFn hd2 = HookFn hd
    /\ (exists s3,
           SetHook h f s2 = Ok tt s3
           /\ holds s3 h2 hd2 gs2 bound2
           /\ (forall ctx r, dispatch E h2 ctx r s3 = dispatch E h2 ctx r s2)
           /\ (HookFn hd = None ->
               forall ctx r, no_hook_event (snd (dispatch E h2 ctx r s3))))
    /\ (exists s3,
           SetHook h2 f s2 = Ok tt s3
           /\ holds s3 h hd gs bound
           /\ forall ctx r, dispatch E h ctx r s3 = dispatch E h ctx r s2).
Proof.
  intros Hholds.
  assert (h < length (handlers (mem s))) as Hlt
    by (apply lookup_lt_is_Some; destruct Hholds as (Hh & _); by eexists).
  assert (exists s2 hd2 gs2 bound2,
             derive E d h s = Ok (length (handlers (mem s))) s2
             /\ extends (mem s) (mem s2)
             /\ holds s2 (length (handlers (mem s))) hd2 gs2 bound2
             /\ HookFn hd2 = HookFn hd)
    as (s2 & hd2 & gs2 & bound2 & Hrun & Hext & Hholds2 & Hhook).
  { destruct d as [name|new_attrs]; cbn [derive].
    - destruct (WithGroup_spec E h name s hd gs bound Hholds)
        as (s2 & g1 & Hrun & _ & Hext & _ & H2).
      by eexists s2, _, _, _.
    - destruct (WithAttrs_spec E h new_attrs s hd gs bound Hholds)
        as (s2 & a1 & Hrun & _ & Hext & _ & H2).
      by eexists s2, _, _, _. }
  pose proof (holds_extends _ _ _ _ _ _ Hholds Hext) as Hholds1.
  exists (length (handlers (mem s))), s2, hd2, gs2, bound2.
  split; [done|]. split; [lia|]. split; [done|]. split; [done|].
  split; [done|]. split.
  - destruct (SetHook_other h f s2 hd gs bound _ hd2 gs2 bound2 Hholds1 Hholds2)
      as (s3 & Hset & Hholds3); [lia|].
    exists s3. split; [done|]. split; [done|]. split.
    + intros ctx r.
      by rewrite (dispatch_holds E _ ctx r s3 hd2 gs2 bound2 Hholds3),
                 (dispatch_holds E _ ctx r s2 hd2 gs2 bound2 Hholds2).
    + intros Hnone ctx r.
      rewrite (dispatch_holds E _ ctx r s3 hd2 gs2 bound2 Hholds3).
      destruct (dispatch_spec_events E (length (handlers (mem s))) hd2 gs2
                                     bound2 ctx r) as (rest & -> & Hrest).
      rewrite hook_events_no_hook by congruence. done.
  - destruct (SetHook_other _ f s2 hd2 gs2 bound2 h hd gs bound Hholds2 Hholds1)
      as (s3 & Hset & Hholds3); [lia|].
    exists s3. split; [done|]. split; [done|].
    intros ctx r.
    by rewrite (dispatch_holds E h ctx r s3 hd gs bound Hholds3),
               (dispatch_holds E h ctx r s2 hd gs bound Hholds1).
Qed.

(** Deriving from the handler of the test bench, then setting hook 7 on
    it. *)
Lemma C10_witness :
  holds benchState 2 benchHandler ["x"] [MkAttr "service" (StringValue "api")]
  /\ exists h2 s2 hd2 gs2 bound2,
      derive testEnv (ByGroup "g") 2 benchState = Ok h2 s2
      /\ h2 <> 2
      /\ holds s2 2 benchHandler ["x"] [MkAttr "service" (StringValue "api")]
      /\ holds s2 h2 hd2 gs2 bound2
      /\ HookFn hd2 = HookFn benchHandler
      /\ (exists s3,
             SetHook 2 (Some 7) s2 = Ok tt s3
             /\ holds s3 h2 hd2 gs2 bound2
             /\ (forall ctx r,
                    dispatch testEnv h2 ctx r s3 = dispatch testEnv h2 ctx r s2)
             /\ (HookFn benchHandler = None ->
                 forall ctx r, no_hook_event (snd (dispatch testEnv h2 ctx r s3))))
      /\ (exists s3,
             SetHook h2 (Some 7) s2 = Ok tt s3
             /\ holds s3 2 benchHandler ["x"] [MkAttr "service" (StringValue "api")]
             /\ forall ctx r,
                 dispatch testEnv 2 ctx r s3 = dispatch testEnv 2 ctx r s2).
Proof.
  assert (holds benchState 2 benchHandler ["x"]
                [MkAttr "service" (StringValue "api")]) as H
    by (repeat split; vm_compute; reflexivity).
  split; [exact H|].
  exact (C10_hook_copied_at_derivation testEnv 2 benchState benchHandler ["x"]
           [MkAttr "service" (StringValue "api")] (ByGroup "g") (Some 7) H).
Defined.

(* ================================================================== *)
(** ** The line *)

Lemma colored_plain E c text : NoColor E = true -> colored E c text = text.
Proof. unfold colored. by intros ->. Qed.

Lemma render_groups_plain E gs :
  NoColor E = true ->
  render_groups E gs = concat_strings (map (fun g => g +:+ ".") gs).
Proof.
  intros Hp. unfold render_groups. induction gs as [|g gs IH]; [done|].
  simpl. by rewrite IH, colored_plain.
Qed.

Lemma render_groups_app E gs gs' :
  render_groups E (gs ++ gs') = render_groups E gs +:+ render_groups E gs'.
Proof.
  unfold render_groups. induction gs as [|g gs IH]; [done|].
  simpl. by rewrite IH, sapp_assoc.
Qed.

(** The line without colours, span by span. *)
Lemma render_line_plain E gs bound r :
  NoColor E = true ->
  render_line E gs bound r
  = "[" +:+ TimeOnly (rTime r) +:+ "] " +:+ level_tag (rLevel r) +:+ " "
    +:+ concat_strings (map (fun g => g +:+ ".") gs)
    +:+ rMessage r +:+ render_attrs E bound +:+ render_attrs E (rAttrs r)
    +:+ newline.
Proof.
  intros Hp. unfold render_line.
  rewrite !colored_plain, render_groups_plain by done.
  by rewrite !sapp_cons, !sapp_nil_l, !sapp_assoc.
Qed.

Lemma render_attr_leaf_plain E key v :
  NoColor E = true -> Value_Kind v <> KindGroup ->
  render_attr E (MkAttr key v)
  = " " +:+ key +:+ "=" +:+ fmt_v E (formatValue E v).
Proof.
  intros Hp Hk.
  destruct v; try (simpl in Hk; congruence); simpl;
    rewrite !colored_plain by done;
    by rewrite !sapp_cons, !sapp_nil_l, !sapp_assoc.
Qed.

(** The clock of [TimeOnly]: hours below 24, minutes and seconds below
    60, of the instant in its location. *)
Lemma TimeOnly_clock t :
  (0 <= hour_of t < 24 /\ 0 <= minute_of t < 60 /\ 0 <= second_of t < 60
   /\ hour_of t * 3600 + minute_of t * 60 + second_of t
      = (unixSec t + zoneOffset t) mod 86400)%Z.
Proof.
  unfold hour_of, minute_of, second_of, clock_seconds.
  set (c := ((unixSec t + zoneOffset t) mod 86400)%Z).
  assert (0 <= c < 86400)%Z by (apply Z.mod_pos_bound; lia).
  pose proof (Z.div_mod c 3600 ltac:(lia)).
  pose proof (Z.mod_pos_bound c 3600 ltac:(lia)).
  pose proof (Z.div_mod (c mod 3600) 60 ltac:(lia)).
  pose proof (Z.mod_pos_bound (c mod 3600) 60 ltac:(lia)).
  assert (c mod 60 = (c mod 3600) mod 60)%Z as Hm.
  { symmetry. apply Z.mod_mod_divide. by exists 60%Z. }
  assert (0 <= c / 3600 < 24)%Z
    by (split; [apply Z.div_pos; lia|apply Z.div_lt_upper_bound; lia]).
  assert (0 <= c mod 3600 / 60 < 60)%Z
    by (split; [apply Z.div_pos; lia|apply Z.div_lt_upper_bound; lia]).
  rewrite Hm. lia.
Qed.

(** [%02d] below one hundred: exactly two decimal digits, which read the
    number. *)
Lemma two_digits_reads z :
  (0 <= z < 100)%Z -> two_digit_text (two_digits z) z = true.
Proof.
  intros Hz.
  assert (forallb (fun n => two_digit_text (two_digits (Z.of_nat n))
                                           (Z.of_nat n))
                  (seq 0 100) = true) as Hall by (by vm_compute).
  rewrite forallb_forall in Hall.
  rewrite <- (Z2Nat.id z) by lia. apply Hall.
  apply in_seq. lia.
Qed.

Lemma two_digit_text_inv s z :
  two_digit_text s z = true ->
  exists a b, s = String a (String b EmptyString)
              /\ Json.is_digit a = true /\ Json.is_digit b = true
              /\ (10 * digit_value a + digit_value b = z)%Z.
Proof.
  destruct s as [|a [|b [|c s]]]; try done. simpl.
  intros H. apply andb_true_iff in H as [H Hv].
  apply andb_true_iff in H as [Ha Hb]. apply Z.eqb_eq in Hv.
  by exists a, b.
Qed.

(** The text of [TimeOnly]: two digits for the hour, a colon, two digits
    for the minute, a colon, two digits for the second, which read the
    hour, the minute and the second of the instant. *)
Lemma TimeOnly_digits t :
  exists h1 h2 m1 m2 s1 s2,
    TimeOnly t = clock_text h1 h2 m1 m2 s1 s2
    /\ forallb Json.is_digit [h1; h2; m1; m2; s1; s2] = true
    /\ (10 * digit_value h1 + digit_value h2 = hour_of t
        /\ 10 * digit_value m1 + digit_value m2 = minute_of t
        /\ 10 * digit_value s1 + digit_value s2 = second_of t)%Z.
Proof.
  destruct (TimeOnly_clock t) as (Hh & Hm & Hs & _).
  destruct (two_digit_text_inv _ _ (two_digits_reads (hour_of t) ltac:(lia)))
    as (h1 & h2 & Hhe & Hh1 & Hh2 & Hhv).
  destruct (two_digit_text_inv _ _ (two_digits_reads (minute_of t) ltac:(lia)))
    as (m1 & m2 & Hme & Hm1 & Hm2 & Hmv).
  destruct (two_digit_text_inv _ _ (two_digits_reads (second_of t) ltac:(lia)))
    as (s1 & s2 & Hse & Hs1 & Hs2 & Hsv).
  exists h1, h2, m1, m2, s1, s2. split; [|split].
  - unfold TimeOnly, clock_text. by rewrite Hhe, Hme, Hse.
  - cbn [forallb]. by rewrite Hh1, Hh2, Hm1, Hm2, Hs1, Hs2.
  - done.
Qed.

Lemma sapp_length a b :
  String.length (a +:+ b) = String.length a + String.length b.
Proof.
  induction a as [|x a IH]; [done|]. rewrite sapp_cons. simpl. by rewrite IH.
Qed.

Lemma level_tag_length l : String.length (level_tag l) = 3.
Proof.
  unfold level_tag, level_style.
  repeat (match goal with |- context [if ?b then _ else _] => destruct b end);
    reflexivity.
Qed.

Lemma concat_strings_app l1 l2 :
  concat_strings (l1 ++ l2) = concat_strings l1 +:+ concat_strings l2.
Proof.
  induction l1 as [|x l1 IH]; [done|]. simpl. by rewrite IH, sapp_assoc.
Qed.

Lemma render_attrs_app E l1 l2 :
  render_attrs E (l1 ++ l2) = render_attrs E l1 +:+ render_attrs E l2.
Proof. unfold render_attrs. by rewrite map_app, concat_strings_app. Qed.

(** A dispatch on a free handler whose hook does not panic. *)
Lemma dispatch_returns E h ctx r s hd gs bound :
  holds s h hd gs bound ->
  hook_panicked E hd ctx r = false ->
  mu hd = false ->
  dispatch E h ctx r s
  = (Returned (write_error E (Writer_ hd) (render_line E gs bound r)),
     hook_events hd ctx r
     ++ [EvLock h; EvWrite (Writer_ hd) (render_line E gs bound r);
         EvUnlock h]).
Proof.
  intros Hholds Hp Hmu.
  rewrite (dispatch_holds E h ctx r s hd gs bound Hholds).
  unfold dispatch_spec. by rewrite Hp, Hmu.
Qed.

Lemma dispatch_written E h ctx r s hd gs bound :
  holds s h hd gs bound ->
  hook_panicked E hd ctx r = false ->
  mu hd = false ->
  written (snd (dispatch E h ctx r s)) = [render_line E gs bound r].
Proof.
  intros Hholds Hp Hmu.
  rewrite (dispatch_returns E h ctx r s hd gs bound Hholds Hp Hmu).
  cbn [snd]. unfold written, hook_events.
  destruct (HookFn hd); [|done].
  by destruct (LevelError <=? rLevel r)%Z.
Qed.

(** C3. A dispatch that returns makes one write of one line, between
    [Lock] and [Unlock]; the line is: the clock [HH:MM:SS] of the record
    in brackets and a blank, the three-character level tag and a blank,
    the group prefix, the message, every bound attribute in accumulation
    order, every attribute of the record in the record's order, one
    newline, each span in its colour and, with colours off, as plain
    text.  The clock is two decimal digits for the hour, a colon, two for
    the minute, a colon, two for the second, and the digits read the
    hour (below 24), the minute and the second (below 60) of the instant
    of the record in its location.  Info [server started] with
    [port=8080] on a root handler gives
    [[HH:MM:SS] INF server started port=8080] and a newline. *)
Theorem C3_line_layout
    (E : Externals) (h : ptr) (ctx : Context) (r : Record) (s : State)
    (hd : ColorHandler) (gs : list string) (bound : list Attr) :
  holds s h hd gs bound ->
  hook_panicked E hd ctx r = false ->
  mu hd = false ->
  let line := render_line E gs bound r in
  dispatch E h ctx r s
  = (Returned (write_error E (Writer_ hd) line),
     hook_events hd ctx r ++ [EvLock h; EvWrite (Writer_ hd) line; EvUnlock h])
  /\ written (snd (dispatch E h ctx r s)) = [line]
  /\ (NoColor E = true ->
      line = "[" +:+ two_digits (hour_of (rTime r)) +:+ ":"
             +:+ two_digits (minute_of (rTime r)) +:+ ":"
             +:+ two_digits (second_of (rTime r)) +:+ "] "
             +:+ level_tag (rLevel r) +:+ " "
             +:+ concat_strings (map (fun g => g +:+ ".") gs)
             +:+ rMessage r
             +:+ concat_strings (map (render_attr E) bound)
             +:+ concat_strings (map (render_attr E) (rAttrs r))
             +:+ newline)
  /\ String.length (level_tag (rLevel r)) = 3
  /\ (NoColor E = true -> gs = [] -> bound = [] ->
      rLevel r = LevelInfo -> rMessage r = "server started" ->
      rAttrs r = [MkAttr "port" (Int64Value 8080)] ->
      line = "[" +:+ TimeOnly (rTime r) +:+ "] INF server started port=8080"
             +:+ newline)
  /\ (exists h1 h2 m1 m2 s1 s2,
         let clock := clock_text h1 h2 m1 m2 s1 s2 in
         forallb Json.is_digit [h1; h2; m1; m2; s1; s2] = true
         /\ (10 * digit_value h1 + digit_value h2 = hour_of (rTime r)
             /\ 10 * digit_value m1 + digit_value m2 = minute_of (rTime r)
             /\ 10 * digit_value s1 + digit_value s2 = second_of (rTime r))%Z
         /\ (0 <= hour_of (rTime r) < 24
             /\ 0 <= minute_of (rTime r) < 60
             /\ 0 <= second_of (rTime r) < 60
             /\ hour_of (rTime r) * 3600 + minute_of (rTime r) * 60
                + second_of (rTime r)
                = (unixSec (rTime r) + zoneOffset (rTime r)) mod 86400)%Z
         /\ line = colored E FgHiBlue ("[" +:+ clock +:+ "] ")
                   +:+ colored E (level_color (rLevel r))
                         (level_tag (rLevel r) +:+ " ")
                   +:+ render_groups E gs
                   +:+ colored E (message_color (rLevel r)) (rMessage r)
                   +:+ render_attrs E bound
                   +:+ render_attrs E (rAttrs r)
                   +:+ newline
         /\ (NoColor E = true ->
             line = "[" +:+ clock +:+ "] " +:+ level_tag (rLevel r) +:+ " "
                    +:+ concat_strings (map (fun g => g +:+ ".") gs)
                    +:+ rMessage r +:+ render_attrs E bound
                    +:+ render_attrs E (rAttrs r) +:+ newline)
         /\ (NoColor E = true -> gs = [] -> bound = [] ->
             rLevel r = LevelInfo -> rMessage r = "server started" ->
             rAttrs r = [MkAttr "port" (Int64Value 8080)] ->
             line = "[" +:+ clock +:+ "] INF server started port=8080"
                    +:+ newline)).
Proof.
  intros Hholds Hp Hmu line.
  assert (dispatch E h ctx r s
          = (Returned (write_error E (Writer_ hd) line),
             hook_events hd ctx r
             ++ [EvLock h; EvWrite (Writer_ hd) line; EvUnlock h])) as Hd.
  { by apply dispatch_returns. }
  assert (NoColor E = true -> gs = [] -> bound = [] ->
          rLevel r = LevelInfo -> rMessage r = "server started" ->
          rAttrs r = [MkAttr "port" (Int64Value 8080)] ->
          line = "[" +:+ TimeOnly (rTime r) +:+ "] INF server started port=8080"
                 +:+ newline) as Hscenario.
  { intros Hplain -> -> Hl Hm Ha. subst line.
    rewrite render_line_plain by done. rewrite Hl, Hm, Ha.
    unfold render_attrs. cbn [map concat_strings].
    rewrite render_attr_leaf_plain by done.
    cbn [formatValue fmt_v].
    rewrite !sapp_nil_r.
    assert (level_tag LevelInfo = "INF") as -> by reflexivity.
    assert (itoa 8080 = "8080") as -> by reflexivity.
    by rewrite !sapp_cons, !sapp_nil_l. }
  split; [exact Hd|]. split; [|split; [|split; [|split]]].
  - by apply (dispatch_written E h ctx r s hd gs bound).
  - intros Hplain. subst line. rewrite render_line_plain by done.
    unfold TimeOnly, render_attrs. by rewrite !sapp_assoc.
  - apply level_tag_length.
  - exact Hscenario.
  - destruct (TimeOnly_digits (rTime r))
      as (h1 & h2 & m1 & m2 & s1 & s2 & Ht & Hdigits & Hvalues).
    exists h1, h2, m1, m2, s1, s2. intros clock.
    split; [exact Hdigits|]. split; [exact Hvalues|].
    split; [apply TimeOnly_clock|]. subst clock. rewrite <- Ht.
    split; [reflexivity|]. split; [|exact Hscenario].
    intros Hplain. subst line. by rewrite render_line_plain.
Qed.

(** The scenario on the root handler of the test bench, at 09:05:03 in a
    location three hours east of UTC: every field of the clock is padded
    to two digits. *)
Lemma C3_witness :
  let r := mkRecord earlyTime LevelInfo "server started"
                    [MkAttr "port" (Int64Value 8080)] in
  holds benchState 0 (mkColorHandler (Sink 0) None nilSlice nilSlice false) [] []
  /\ written (snd (dispatch testEnv 0 0 r benchState))
     = ["[09:05:03] INF server started port=8080" +:+ newline].
Proof.
  intros r.
  assert (holds benchState 0
                (mkColorHandler (Sink 0) None nilSlice nilSlice false) [] [])
    as H by (repeat split; vm_compute; reflexivity).
  split; [exact H|].
  exact (proj1 (proj2 (C3_line_layout testEnv 0 0 r benchState _ [] [] H
                         eq_refl eq_refl))).
Defined.

(** The lines of the package's README: nested groups, and bound
    attributes before those of the record. *)
Example readme_nested_groups :
  match (root <- NewColorHandler (Sink 0) ;;
         h1 <- WithGroup testEnv root "storage" ;;
         h2 <- WithGroup testEnv h1 "postgres" ;;
         Handle testEnv h2 0
                (mkRecord testTime LevelError "query failed"
                          [MkAttr "table" (StringValue "orders")])) emptyState
  with
  | Ok err s =>
      err = None
      /\ written (trace s)
         = ["[12:30:45] ERR storage.postgres.query failed table=orders"
            +:+ newline]
  | Stopped _ _ => False
  end.
Proof. by vm_compute. Qed.

Example readme_bound_attributes :
  match (root <- NewColorHandler (Sink 0) ;;
         h1 <- WithAttrs testEnv root
                 [MkAttr "request_id" (StringValue "abc-123");
                  MkAttr "user_id" (Int64Value 7)] ;;
         Handle testEnv h1 0
                (mkRecord testTime LevelInfo "fetching data"
                          [MkAttr "table" (StringValue "products")])) emptyState
  with
  | Ok err s =>
      written (trace s)
      = ["[12:30:45] INF fetching data request_id=abc-123 user_id=7 table=products"
         +:+ newline]
  | Stopped _ _ => False
  end.
Proof. by vm_compute. Qed.

(** With colours on every span sits between its colour and the reset. *)
Example colored_line :
  written (snd (dispatch colorEnv 0 0 (mkRecord testTime LevelInfo "hi" [])
                         benchState))
  = [escape +:+ "[94m[12:30:45] " +:+ escape +:+ "[0m"
     +:+ escape +:+ "[32mINF " +:+ escape +:+ "[0m"
     +:+ escape +:+ "[32mhi" +:+ escape +:+ "[0m" +:+ newline].
Proof. by vm_compute. Qed.

(** C6. The level tag is [DBG], [INF], [WRN], [ERR] for the four named
    levels and [???] for every other integer, below Debug, above Error or
    in between; it is three characters wide; and a record of any level is
    dispatched like any other: the call returns what the sink reports and
    the line carries the tag behind the clock. *)
Theorem C6_level_tags (E : Externals) (l : Level) :
  level_tag LevelDebug = "DBG"
  /\ level_tag LevelInfo = "INF"
  /\ level_tag LevelWarn = "WRN"
  /\ level_tag LevelError = "ERR"
  /\ (l <> LevelDebug -> l <> LevelInfo -> l <> LevelWarn -> l <> LevelError ->
      level_tag l = "???")
  /\ (forall h ctx r s hd gs bound,
         rLevel r = l ->
         holds s h hd gs bound ->
         hook_panicked E hd ctx r = false ->
         mu hd = false ->
         exists line,
           dispatch E h ctx r s
           = (Returned (write_error E (Writer_ hd) line),
              hook_events hd ctx r
              ++ [EvLock h; EvWrite (Writer_ hd) line; EvUnlock h])
           /\ (NoColor E = true ->
               exists rest,
                 line = "[" +:+ TimeOnly (rTime r) +:+ "] "
                        +:+ level_tag l +:+ " " +:+ rest)).
Proof.
  repeat (split; [reflexivity|]). split.
  - intros H1 H2 H3 H4. unfold level_tag, level_style.
    rewrite (proj2 (Z.eqb_neq _ _) H1), (proj2 (Z.eqb_neq _ _) H2),
            (proj2 (Z.eqb_neq _ _) H3), (proj2 (Z.eqb_neq _ _) H4).
    reflexivity.
  - intros h ctx r s hd gs bound Hl Hholds Hp Hmu.
    exists (render_line E gs bound r). split.
    + rewrite (dispatch_holds E h ctx r s hd gs bound Hholds).
      unfold dispatch_spec. by rewrite Hp, Hmu.
    + intros Hplain. eexists.
      rewrite render_line_plain by done. rewrite Hl. reflexivity.
Qed.

Example level_tag_42 : level_tag 42%Z = "???".
Proof. reflexivity. Qed.

Example level_tag_far_below_debug : level_tag (-1000000)%Z = "???".
Proof. reflexivity. Qed.

Example level_tag_above_error : level_tag 9%Z = "???".
Proof. reflexivity. Qed.

Example level_tag_between : level_tag 2%Z = "???".
Proof. reflexivity. Qed.

(* ================================================================== *)
(** ** Groups *)

Lemma WithGroup3_spec E h a b c s hd gs bound :
  holds s h hd gs bound ->
  exists h3 s3 hd3,
    WithGroup3 E h a b c s = Ok h3 s3
    /\ holds s3 h3 hd3 (gs ++ [a; b; c]) bound
    /\ holds s3 h hd gs bound
    /\ Writer_ hd3 = Writer_ hd /\ HookFn hd3 = HookFn hd /\ mu hd3 = false.
Proof.
  intros H0.
  destruct (WithGroup_spec E h a s hd gs bound H0)
    as (s1 & g1 & Hr1 & _ & He1 & _ & H1).
  destruct (WithGroup_spec E _ b s1 _ _ bound H1)
    as (s2 & g2 & Hr2 & _ & He2 & _ & H2).
  destruct (WithGroup_spec E _ c s2 _ _ bound H2)
    as (s3 & g3 & Hr3 & _ & He3 & _ & H3).
  eexists _, s3, _. split.
  - unfold WithGroup3.
    rewrite (bind_Ok _ _ _ _ _ Hr1), (bind_Ok _ _ _ _ _ Hr2). exact Hr3.
  - split.
    + rewrite <- !app_assoc in H3. exact H3.
    + split; [|done].
      eapply holds_extends; [exact H0|].
      eapply extends_trans; [exact He1|].
      eapply extends_trans; [exact He2|exact He3].
Qed.

(** C5, as the code has it.  For a handler H with group path [P] and
    names a, b, c, the handler [H.WithGroup(a).WithGroup(b).WithGroup(c)]
    has the group path [P] followed by a, b, c, and prints as group prefix
    the prefix of H followed by the segments [a.], [b.], [c.]: the names
    in that order, each followed by a dot and each in the colour of the
    groups, nothing else, and in the line between the level tag and the
    message.  In plain-text mode the prefix is the text of the prefix of
    H followed by [a.b.c.], and for a handler without groups (a root
    handler) exactly [a.b.c.]. *)
Theorem C5_group_path_concatenation
    (E : Externals) (h : ptr) (s : State) (hd : ColorHandler)
    (gs : list string) (bound : list Attr) (a b c : string) :
  holds s h hd gs bound ->
  exists h3 s3 hd3,
    WithGroup3 E h a b c s = Ok h3 s3
    /\ holds s3 h3 hd3 (gs ++ [a; b; c]) bound
    /\ group_prefix E s h = Some (render_groups E gs)
    /\ group_prefix E s3 h3
       = Some (render_groups E gs
               +:+ colored E FgHiBlue (a +:+ ".")
               +:+ colored E FgHiBlue (b +:+ ".")
               +:+ colored E FgHiBlue (c +:+ "."))
    /\ (forall ctx r,
           hook_panicked E hd3 ctx r = false ->
           written (snd (dispatch E h3 ctx r s3))
           = [colored E FgHiBlue ("[" +:+ TimeOnly (rTime r) +:+ "] ")
              +:+ colored E (level_color (rLevel r))
                    (level_tag (rLevel r) +:+ " ")
              +:+ (render_groups E gs
                   +:+ colored E FgHiBlue (a +:+ ".")
                   +:+ colored E FgHiBlue (b +:+ ".")
                   +:+ colored E FgHiBlue (c +:+ "."))
              +:+ colored E (message_color (rLevel r)) (rMessage r)
              +:+ render_attrs E bound
              +:+ render_attrs E (rAttrs r) +:+ newline])
    /\ (NoColor E = true ->
        group_prefix E s3 h3
        = Some (render_groups E gs +:+ a +:+ "." +:+ b +:+ "." +:+ c +:+ ".")
        /\ group_prefix E s3 h3
           = Some (concat_strings (map (fun g => g +:+ ".") gs)
                   +:+ a +:+ "." +:+ b +:+ "." +:+ c +:+ ".")
        /\ (gs = [] ->
            group_prefix E s3 h3
            = Some (a +:+ "." +:+ b +:+ "." +:+ c +:+ "."))
        /\ (forall ctx r,
               hook_panicked E hd3 ctx r = false ->
               written (snd (dispatch E h3 ctx r s3))
               = ["[" +:+ TimeOnly (rTime r) +:+ "] " +:+ level_tag (rLevel r)
                  +:+ " "
                  +:+ (render_groups E gs +:+ a +:+ "." +:+ b +:+ "."
                       +:+ c +:+ ".")
                  +:+ rMessage r +:+ render_attrs E bound
                  +:+ render_attrs E (rAttrs r) +:+ newline])).
Proof.
  intros H0.
  destruct (WithGroup3_spec E h a b c s hd gs bound H0)
    as (h3 & s3 & hd3 & Hrun & H3 & _ & _ & _ & Hmu).
  assert (render_groups E (gs ++ [a; b; c])
          = render_groups E gs
            +:+ colored E FgHiBlue (a +:+ ".")
            +:+ colored E FgHiBlue (b +:+ ".")
            +:+ colored E FgHiBlue (c +:+ ".")) as Hcolored.
  { rewrite render_groups_app. f_equal. unfold render_groups.
    cbn [map concat_strings]. by rewrite sapp_nil_r. }
  assert (NoColor E = true ->
          render_groups E (gs ++ [a; b; c])
          = render_groups E gs +:+ a +:+ "." +:+ b +:+ "." +:+ c +:+ ".")
    as Hprefix.
  { intros Hplain. rewrite Hcolored, !colored_plain by done.
    by rewrite !sapp_assoc. }
  assert (group_prefix E s3 h3 = Some (render_groups E (gs ++ [a; b; c])))
    as Hgp.
  { unfold group_prefix. by destruct H3 as (-> & -> & _). }
  exists h3, s3, hd3. split; [done|]. split; [done|].
  split; [|split; [|split]].
  - unfold group_prefix. by destruct H0 as (-> & -> & _).
  - by rewrite Hgp, Hcolored.
  - intros ctx r Hp.
    rewrite (dispatch_written E h3 ctx r s3 hd3 _ bound H3 Hp Hmu).
    unfold render_line. by rewrite Hcolored.
  - intros Hplain. split; [by rewrite Hgp, Hprefix|]. split; [|split].
    + by rewrite Hgp, Hprefix, (render_groups_plain E gs Hplain).
    + intros ->. by rewrite Hgp, Hprefix.
    + intros ctx r Hp.
      rewrite (dispatch_written E h3 ctx r s3 hd3 _ bound H3 Hp Hmu).
      rewrite render_line_plain by done.
      rewrite <- (render_groups_plain E) by done. by rewrite Hprefix.
Qed.

(** Three groups on the root handler of the test bench and on handler 1,
    which has the group [x]; and on the root handler with colours on. *)
Lemma C5_witness :
  holds benchState 0 (mkColorHandler (Sink 0) None nilSlice nilSlice false) [] []
  /\ holds benchState 1
           (mkColorHandler (Sink 0) None (mkSlice 1 0 1 2) nilSlice false)
           ["x"] []
  /\ NoColor testEnv = true
  /\ (exists h3 s3,
         WithGroup3 testEnv 0 "a" "b" "c" benchState = Ok h3 s3
         /\ group_prefix testEnv s3 h3 = Some "a.b.c.")
  /\ (exists h3 s3,
         WithGroup3 testEnv 1 "a" "b" "c" benchState = Ok h3 s3
         /\ group_prefix testEnv s3 h3 = Some "x.a.b.c.")
  /\ (exists h3 s3,
         WithGroup3 colorEnv 0 "a" "b" "c" benchState = Ok h3 s3
         /\ group_prefix colorEnv s3 h3
            = Some (escape +:+ "[94ma." +:+ escape +:+ "[0m"
                    +:+ escape +:+ "[94mb." +:+ escape +:+ "[0m"
                    +:+ escape +:+ "[94mc." +:+ escape +:+ "[0m")).
Proof.
  assert (holds benchState 0
                (mkColorHandler (Sink 0) None nilSlice nilSlice false) [] [])
    as H by (repeat split; vm_compute; reflexivity).
  assert (holds benchState 1
                (mkColorHandler (Sink 0) None (mkSlice 1 0 1 2) nilSlice false)
                ["x"] []) as H1 by (repeat split; vm_compute; reflexivity).
  split; [exact H|]. split; [exact H1|]. split; [reflexivity|].
  split; [|split].
  - destruct (C5_group_path_concatenation testEnv 0 benchState _ [] [] "a" "b"
                "c" H) as (h3 & s3 & hd3 & Hrun & _ & _ & _ & _ & Hplain).
    exists h3, s3. split; [exact Hrun|].
    exact (proj1 (proj2 (proj2 (Hplain eq_refl))) eq_refl).
  - destruct (C5_group_path_concatenation testEnv 1 benchState _ ["x"] [] "a"
                "b" "c" H1) as (h3 & s3 & hd3 & Hrun & _ & _ & _ & _ & Hplain).
    exists h3, s3. split; [exact Hrun|].
    exact (proj1 (proj2 (Hplain eq_refl))).
  - destruct (C5_group_path_concatenation colorEnv 0 benchState _ [] [] "a" "b"
                "c" H) as (h3 & s3 & hd3 & Hrun & _ & _ & Hgp & _).
    exists h3, s3. split; [exact Hrun|exact Hgp].
Defined.

(** C5 as stated fails for a handler that already has a group: for
    [H = root.WithGroup(x)] (handler 1 of the test bench) the prefix of
    [H.WithGroup(a).WithGroup(b).WithGroup(c)] is [x.a.b.c.], not
    [a.b.c.]. *)
Lemma C5_counterexample :
  exists h3 s3,
    WithGroup3 testEnv 1 "a" "b" "c" benchState = Ok h3 s3
    /\ group_prefix testEnv s3 h3 = Some "x.a.b.c."
    /\ group_prefix testEnv s3 h3 <> Some "a.b.c."
    /\ written (snd (dispatch testEnv h3 0
                              (mkRecord testTime LevelInfo "deep" []) s3))
       = ["[12:30:45] INF x.a.b.c.deep" +:+ newline].
Proof.
  eexists _, _. split; [vm_compute; reflexivity|].
  split; [by vm_compute|]. split; by vm_compute.
Qed.

(** C9. An attribute whose value is a group prints nothing for itself:
    [processAttr] on it leaves in the buffer exactly what [processAttrs]
    leaves for its children, in their order; the key has no part in it;
    a child that is not a group prints a blank, its key, [=] and its
    value.  [user{name:Alice, id:7}] prints [ name=Alice id=7], in which
    [user=] does not occur. *)
Theorem C9_group_key_not_printed
    (E : Externals) (key : string) (l : list Attr) (h : ColorHandler)
    (buf : buffer) (s : State) (gs : list string) :
  slice_elems (strArrays (mem s)) (groups h) = Some gs ->
  (exists s1 s2,
      processAttr E h buf (MkAttr key (GroupValue l)) s
      = Ok (buf +:+ render_attrs E l) s1
      /\ processAttrs E h buf l s = Ok (buf +:+ render_attrs E l) s2)
  /\ (forall key', exists s',
         processAttr E h buf (MkAttr key' (GroupValue l)) s
         = Ok (buf +:+ render_attrs E l) s')
  /\ (forall k v rest,
         l = MkAttr k v :: rest -> Value_Kind v <> KindGroup ->
         NoColor E = true ->
         render_attrs E l
         = " " +:+ k +:+ "=" +:+ fmt_v E (formatValue E v)
           +:+ render_attrs E rest)
  /\ (NoColor E = true ->
      l = [MkAttr "name" (StringValue "Alice"); MkAttr "id" (Int64Value 7)] ->
      render_attrs E l = " name=Alice id=7"
      /\ String.index 0 "user=" (render_attrs E l) = None).
Proof.
  intros Hg. split; [|split; [|split]].
  - destruct (processAttr_spec E (MkAttr key (GroupValue l)) h buf s gs Hg)
      as [e1 H1].
    destruct (processAttrs_spec E l h buf s gs Hg) as [e2 H2].
    eexists _, _. split; [exact H1|exact H2].
  - intros key'.
    destruct (processAttr_spec E (MkAttr key' (GroupValue l)) h buf s gs Hg)
      as [e1 H1].
    eexists. exact H1.
  - intros k v rest -> Hk Hplain. unfold render_attrs. cbn [map concat_strings].
    rewrite render_attr_leaf_plain by done. by rewrite !sapp_assoc.
  - intros Hplain ->. unfold render_attrs. cbn [map concat_strings].
    rewrite !render_attr_leaf_plain by done.
    cbn [formatValue fmt_v]. by vm_compute.
Qed.

(** The record of the package's test, on the root handler of the bench. *)
Lemma C9_witness :
  let user := MkAttr "user" (GroupValue [MkAttr "name" (StringValue "Alice");
                                         MkAttr "id" (Int64Value 7)]) in
  slice_elems (strArrays (mem benchState)) nilSlice = Some []
  /\ exists s1,
      processAttr testEnv (mkColorHandler (Sink 0) None nilSlice nilSlice false)
                  "[12:30:45] INF nested group" user benchState
      = Ok "[12:30:45] INF nested group name=Alice id=7" s1.
Proof.
  intros user. split; [reflexivity|].
  destruct (proj1 (C9_group_key_not_printed testEnv "user"
                     [MkAttr "name" (StringValue "Alice");
                      MkAttr "id" (Int64Value 7)]
                     (mkColorHandler (Sink 0) None nilSlice nilSlice false)
                     "[12:30:45] INF nested group" benchState [] eq_refl))
    as (s1 & _ & H1 & _).
  exists s1. exact H1.
Defined.

(* ================================================================== *)
(** ** Values *)

(** C8. A payload of kind any that is neither an error nor a string goes
    through [json.MarshalIndent] with an empty prefix and an indent of two
    blanks: the text it gives is what [formatValue] returns for the value
    and what [processAttr] prints behind the key, and when it fails the
    original value comes back unchanged and is printed as [%v] prints it.
    Formatting has no error to report: whatever the kind, an attribute
    that is not a group leaves the buffer extended by its key and some
    text, and the state untouched. *)
Theorem C8_any_value_formatting (E : Externals) (v : GoAny) :
  (forall msg, v <> GoError msg) ->
  (forall str, v <> GoString str) ->
  formatAnyValue E v
  = match MarshalIndent E v "" "  " with
    | inl text => GoString text
    | inr _ => v
    end
  /\ (forall text, MarshalIndent E v "" "  " = inl text ->
                   fmt_v E (formatAnyValue E v) = text)
  /\ (forall err, MarshalIndent E v "" "  " = inr err -> formatAnyValue E v = v)
  /\ (forall key value h buf s,
         Value_Kind value <> KindGroup ->
         processAttr E h buf (MkAttr key value) s
         = Ok (buf +:+ colored E FgHiGreen (" " +:+ key +:+ "=")
               +:+ colored E FgHiYellow (fmt_v E (formatValue E value))) s)
  /\ formatValue E (AnyValue v)
     = match MarshalIndent E v "" "  " with
       | inl text => GoString text
       | inr _ => v
       end
  /\ (forall text key h buf s,
         MarshalIndent E v "" "  " = inl text ->
         processAttr E h buf (MkAttr key (AnyValue v)) s
         = Ok (buf +:+ colored E FgHiGreen (" " +:+ key +:+ "=")
               +:+ colored E FgHiYellow text) s)
  /\ (forall err key h buf s,
         MarshalIndent E v "" "  " = inr err ->
         processAttr E h buf (MkAttr key (AnyValue v)) s
         = Ok (buf +:+ colored E FgHiGreen (" " +:+ key +:+ "=")
               +:+ colored E FgHiYellow (fmt_v E v)) s).
Proof.
  intros Herr Hstr.
  assert (formatAnyValue E v
          = match MarshalIndent E v "" "  " with
            | inl text => GoString text
            | inr _ => v
            end) as Hf.
  { destruct v; try reflexivity.
    - by destruct (Herr msg).
    - by destruct (Hstr s). }
  assert (forall key value h buf s,
             Value_Kind value <> KindGroup ->
             processAttr E h buf (MkAttr key value) s
             = Ok (buf +:+ colored E FgHiGreen (" " +:+ key +:+ "=")
                   +:+ colored E FgHiYellow (fmt_v E (formatValue E value))) s)
    as Hleaf.
  { intros key value h buf s Hk.
    rewrite processAttr_leaf by done.
    destruct value; try (simpl in Hk; congruence); reflexivity. }
  split; [exact Hf|]. split; [|split; [|split; [|split; [|split]]]].
  - intros text Hm. by rewrite Hf, Hm.
  - intros err Hm. by rewrite Hf, Hm.
  - exact Hleaf.
  - cbn [formatValue]. exact Hf.
  - intros text key h buf s Hm.
    rewrite Hleaf by done. cbn [formatValue]. by rewrite Hf, Hm.
  - intros err key h buf s Hm.
    rewrite Hleaf by done. cbn [formatValue]. by rewrite Hf, Hm.
Qed.

(** A struct, which the bench serialises over three lines with the field
    behind two blanks, and a channel, which it refuses; [slog.Any] keeps
    both as values of kind any. *)
Lemma C8_witness :
  let indented := "{" +:+ newline +:+ "  " +:+ quoted "'Name': 'Alice'"
                  +:+ newline +:+ "}" in
  (forall msg, GoOther 2 <> GoError msg)
  /\ (forall str, GoOther 2 <> GoString str)
  /\ slog_AnyValue (GoOther 2) = AnyValue (GoOther 2)
  /\ formatValue testEnv (AnyValue (GoOther 2)) = GoString indented
  /\ processAttr testEnv benchHandler "msg"
                 (MkAttr "user" (slog_AnyValue (GoOther 2))) benchState
     = Ok ("msg user=" +:+ indented) benchState
  /\ formatValue testEnv (AnyValue (GoOther 1)) = GoOther 1
  /\ processAttr testEnv benchHandler "msg"
                 (MkAttr "ch" (slog_AnyValue (GoOther 1))) benchState
     = Ok ("msg ch=" +:+ Sprint_other testEnv (GoOther 1)) benchState.
Proof.
  intros indented.
  pose proof (C8_any_value_formatting testEnv (GoOther 2)
                ltac:(discriminate) ltac:(discriminate))
    as (_ & _ & _ & _ & Hvalue & Hprinted & _).
  pose proof (C8_any_value_formatting testEnv (GoOther 1)
                ltac:(discriminate) ltac:(discriminate))
    as (_ & _ & _ & _ & Hrefused & _ & Hraw).
  split; [discriminate|]. split; [discriminate|]. split; [reflexivity|].
  split; [exact Hvalue|]. split; [|split; [exact Hrefused|]].
  - exact (Hprinted indented "user" benchHandler "msg" benchState eq_refl).
  - exact (Hraw "json: unsupported type" "ch" benchHandler "msg" benchState
                eq_refl).
Defined.

(** Through [slog.Any] a string has kind [KindString] and never reaches
    [formatAnyValue]: it is printed as it is, JSON or not. *)
Lemma slog_Any_string_verbatim E str :
  fmt_v E (formatValue E (slog_AnyValue (GoString str))) = str.
Proof. reflexivity. Qed.

(** C2. A string logged as an attribute value through [slog.Any] is
    rendered as it is, whether it parses as JSON or not: [slog.AnyValue]
    gives it the kind [KindString], [formatValue] returns the string and
    [%v] prints it, unescaped and without quotes around it, so the line
    [Handle] writes has [ key=] and the very text behind it, among the
    other attributes of the record in their order.  [formatAnyValue]
    itself, given a string, keeps its bytes as well: a [json.RawMessage]
    holding them when the string is JSON, the string when it is not. *)
Theorem C2_json_string_rendered_verbatim
    (E : Externals) (h : ptr) (ctx : Context) (r : Record) (s : State)
    (hd : ColorHandler) (gs : list string) (bound : list Attr)
    (key str : string) (before after : list Attr) :
  holds s h hd gs bound ->
  hook_panicked E hd ctx r = false ->
  mu hd = false ->
  rAttrs r = before ++ MkAttr key (slog_AnyValue (GoString str)) :: after ->
  slog_AnyValue (GoString str) = StringValue str
  /\ fmt_v E (formatValue E (slog_AnyValue (GoString str))) = str
  /\ (forall hh buf st,
         processAttr E hh buf (MkAttr key (slog_AnyValue (GoString str))) st
         = Ok (buf +:+ colored E FgHiGreen (" " +:+ key +:+ "=")
               +:+ colored E FgHiYellow str) st)
  /\ written (snd (dispatch E h ctx r s))
     = [colored E FgHiBlue ("[" +:+ TimeOnly (rTime r) +:+ "] ")
        +:+ colored E (level_color (rLevel r)) (level_tag (rLevel r) +:+ " ")
        +:+ render_groups E gs
        +:+ colored E (message_color (rLevel r)) (rMessage r)
        +:+ render_attrs E bound
        +:+ (render_attrs E before
             +:+ (colored E FgHiGreen (" " +:+ key +:+ "=")
                  +:+ colored E FgHiYellow str)
             +:+ render_attrs E after)
        +:+ newline]
  /\ (NoColor E = true ->
      written (snd (dispatch E h ctx r s))
      = ["[" +:+ TimeOnly (rTime r) +:+ "] " +:+ level_tag (rLevel r) +:+ " "
         +:+ concat_strings (map (fun g => g +:+ ".") gs)
         +:+ rMessage r +:+ render_attrs E bound
         +:+ (render_attrs E before
              +:+ (" " +:+ key +:+ "=" +:+ str)
              +:+ render_attrs E after)
         +:+ newline])
  /\ (isJSON str = true -> formatAnyValue E (GoString str) = GoRawMessage str)
  /\ (isJSON str = false ->
      formatAnyValue E (GoString str) = GoString str
      /\ fmt_v E (formatAnyValue E (GoString str)) = str)
  /\ (RawMessage_Stringer E = true ->
      fmt_v E (formatAnyValue E (GoString str)) = str).
Proof.
  intros Hholds Hp Hmu Hattrs.
  assert (render_attrs E (rAttrs r)
          = render_attrs E before
            +:+ (colored E FgHiGreen (" " +:+ key +:+ "=")
                 +:+ colored E FgHiYellow str)
            +:+ render_attrs E after) as Hrendered.
  { rewrite Hattrs, render_attrs_app. by f_equal. }
  split; [reflexivity|]. split; [apply slog_Any_string_verbatim|].
  split; [|split; [|split; [|split; [|split]]]].
  - intros hh buf st. rewrite processAttr_leaf by done.
    cbn [slog_AnyValue render_attr formatValue fmt_v]. done.
  - rewrite (dispatch_written E h ctx r s hd gs bound Hholds Hp Hmu).
    unfold render_line. by rewrite Hrendered.
  - intros Hplain.
    rewrite (dispatch_written E h ctx r s hd gs bound Hholds Hp Hmu).
    rewrite render_line_plain by done.
    rewrite Hrendered, !colored_plain by done.
    by rewrite !sapp_assoc.
  - intros Hj. unfold formatAnyValue. by rewrite Hj.
  - intros Hj. unfold formatAnyValue. by rewrite Hj.
  - intros Hraw. unfold formatAnyValue.
    destruct (isJSON str); cbn [fmt_v]; [by rewrite Hraw|done].
Qed.

(** The string of the specification, and one that is not JSON, as
    attributes of one record on the root handler of the test bench. *)
Lemma C2_witness :
  let js := quoted "{'key':'value'}" in
  let r := mkRecord testTime LevelInfo "payload"
                    [MkAttr "data" (slog_AnyValue (GoString js));
                     MkAttr "note" (slog_AnyValue (GoString "not json"))] in
  holds benchState 0 (mkColorHandler (Sink 0) None nilSlice nilSlice false) [] []
  /\ isJSON js = true
  /\ isJSON "not json" = false
  /\ written (snd (dispatch testEnv 0 0 r benchState))
     = ["[12:30:45] INF payload data=" +:+ js +:+ " note=not json" +:+ newline].
Proof.
  intros js r.
  assert (holds benchState 0
                (mkColorHandler (Sink 0) None nilSlice nilSlice false) [] [])
    as H by (repeat split; vm_compute; reflexivity).
  split; [exact H|]. split; [by vm_compute|]. split; [by vm_compute|].
  exact (proj1 (proj2 (proj2 (proj2
           (C2_json_string_rendered_verbatim testEnv 0 0 r benchState _ [] []
              "data" js []
              [MkAttr "note" (slog_AnyValue (GoString "not json"))]
              H eq_refl eq_refl eq_refl))))).
Defined.

(** How [%v] prints the [json.RawMessage] that a direct call of
    [formatAnyValue] returns depends on the release: the text where the
    type has a [String] method, the values of the bytes where it has
    none. *)
Example raw_message_printing (E : Externals) :
  fmt_v E (formatAnyValue E (GoString (quoted "{'key':'value'}")))
  = if RawMessage_Stringer E then quoted "{'key':'value'}"
    else "[123 34 107 101 121 34 58 34 118 97 108 117 101 34 125]".
Proof.
  assert (isJSON (quoted "{'key':'value'}") = true) as Hj by (by vm_compute).
  unfold formatAnyValue. rewrite Hj. cbn [fmt_v].
  destruct (RawMessage_Stringer E); [done|]. by vm_compute.
Qed.

Example isJSON_cases :
  map isJSON [quoted "{'a':1}"; "[1,2,3]"; quoted "'hello'"; "42"; "not json";
              "{broken"; ""]
  = [true; true; true; true; false; false; false].
Proof. by vm_compute. Qed.

(* ================================================================== *)
(** ** Concurrent dispatch *)

(** C4, at a handler and the handler derived from it.  [WithGroup] gives
    the new handler a mutex of its own, so the two calls do not exclude
    each other: after four steps both goroutines hold a lock and are
    inside [Write] on the same sink, and the schedule that lets them
    write in turns leaves the two lines torn into each other. *)
Theorem C4_derived_handler_has_its_own_lock :
  let line1 := "[12:30:45] INF one" +:+ newline in
  let line2 := "[12:30:45] INF x.two" +:+ newline in
  (exists w,
      run testEnv [0; 1; 0; 1] derivedWorld = Some w
      /\ goroutines w
         = [GWriting 0 (Sink 0) line1 (bytes_of line1);
            GWriting 1 (Sink 0) line2 (bytes_of line2)]
      /\ option_map mu (handlers (mem (shared w)) !! 0) = Some true
      /\ option_map mu (handlers (mem (shared w)) !! 1) = Some true)
  /\ (exists w,
         run testEnv tornSchedule derivedWorld = Some w
         /\ goroutines w = [GDone line1; GDone line2]
         /\ sink_content (Sink 0) (arrived w)
            = "[[1122::3300::4455]]  IINNFF  oxn.et" +:+ newline
              +:+ "wo" +:+ newline
         /\ sink_content (Sink 0) (arrived w) <> line1 +:+ line2
         /\ sink_content (Sink 0) (arrived w) <> line2 +:+ line1).
Proof.
  intros line1 line2. split.
  - eexists. split; [by vm_compute|]. by vm_compute.
  - eexists. split; [by vm_compute|].
    split; [by vm_compute|]. split; [by vm_compute|].
    split; by vm_compute.
Qed.

(** On one handler the second [Lock] has to wait: the state in which
    both goroutines write is not reached, and the lines arrive whole. *)
Example same_handler_second_lock_waits :
  run testEnv [0; 1; 0; 1] sameWorld = None
  /\ exists w,
      run testEnv ([0; 1; 0] ++ repeat 0 20 ++ repeat 1 21) sameWorld = Some w
      /\ sink_content (Sink 0) (arrived w)
         = "[12:30:45] INF one" +:+ newline
           +:+ "[12:30:45] INF two" +:+ newline.
Proof.
  split; [by vm_compute|]. eexists. split; by vm_compute.
Qed.

(* ------------------------------------------------------------------ *)
(** On one handler the lock does its work: whatever the schedule, the
    bytes that have arrived, followed by what the one goroutine inside
    [Write] has still to hand over, are whole lines, one for every
    goroutine that has passed the lock. *)

Lemma lines_of_insert_same (l : list Goroutine) i x y :
  l !! i = Some x -> line_of y = line_of x ->
  lines_of (<[i := y]> l) = lines_of l.
Proof.
  revert i; induction l as [|a l IH]; intros [|i] Hi Hf; simpl in *; try done.
  - injection Hi as ->. by rewrite Hf.
  - by rewrite (IH i Hi Hf).
Qed.

Lemma lines_of_insert_new (l : list Goroutine) i x y line :
  l !! i = Some x -> line_of x = None -> line_of y = Some line ->
  lines_of (<[i := y]> l) ≡ₚ lines_of l ++ [line].
Proof.
  revert i; induction l as [|a l IH]; intros [|i] Hi Hx Hy; simpl in *;
    try done.
  - injection Hi as ->. rewrite Hx, Hy.
    by rewrite Permutation_app_comm.
  - destruct (line_of a); simpl; by rewrite (IH i Hi Hx Hy).
Qed.

Lemma pending_not_writing g : is_writing g = false -> pending g = [].
Proof. by destruct g. Qed.

Lemma pending_none (l : list Goroutine) :
  Forall (fun g => is_writing g = false) l -> concat (map pending l) = [].
Proof.
  induction 1 as [|g l Hg _ IH]; [done|].
  simpl. by rewrite (pending_not_writing g Hg), IH.
Qed.

Lemma pending_one (l : list Goroutine) i g :
  i < length l ->
  (forall j g', j <> i -> l !! j = Some g' -> is_writing g' = false) ->
  concat (map pending (<[i := g]> l)) = pending g.
Proof.
  revert i; induction l as [|a l IH]; intros [|i] Hi Hothers; simpl in *;
    try lia.
  - rewrite pending_none; [by rewrite app_nil_r|].
    apply Forall_forall. intros g' Hin.
    apply list_elem_of_lookup in Hin as [j Hj].
    by apply (Hothers (S j) g').
  - rewrite (pending_not_writing a) by (by apply (Hothers 0 a)).
    simpl. apply IH; [lia|].
    intros j g' Hne Hj. apply (Hothers (S j) g'); [lia|done].
Qed.

Lemma lines_of_calls h (cs : list (Context * Record)) :
  lines_of (map (fun c => GCall h (fst c) (snd c)) cs) = [].
Proof. induction cs as [|c cs IH]; [done|by simpl]. Qed.

Lemma stage_of_calls E h hd gs bound (cs : list (Context * Record)) :
  Forall2 (stage_of E h hd gs bound) cs
          (map (fun c => GCall h (fst c) (snd c)) cs).
Proof. induction cs as [|c cs IH]; constructor; [by left|done]. Qed.

Lemma lock_matches_idle b l i g g' :
  l !! i = Some g -> is_writing g = false -> is_writing g' = false ->
  lock_matches b l -> lock_matches b (<[i := g']> l).
Proof.
  intros Hi Hg Hg'. destruct b; cbn [lock_matches].
  - intros (i0 & g0 & Hi0 & Hw0 & Hothers).
    assert (i <> i0) by (intros ->; congruence).
    exists i0, g0. split; [by rewrite list_lookup_insert_ne|]. split; [done|].
    intros j g1 Hj Hl. destruct (decide (j = i)) as [->|Hne].
    + rewrite list_lookup_insert_eq in Hl
        by (apply lookup_lt_is_Some; eauto).
      by injection Hl as <-.
    + rewrite list_lookup_insert_ne in Hl by done. by apply (Hothers j).
  - intros Hall. by apply Forall_insert.
Qed.

Lemma pending_insert_same (l : list Goroutine) i g g' :
  l !! i = Some g -> pending g' = pending g ->
  concat (map pending (<[i := g']> l)) = concat (map pending l).
Proof.
  revert i; induction l as [|a l IH]; intros [|i] Hi Hp; simpl in *; try done.
  - injection Hi as ->. by rewrite Hp.
  - by rewrite (IH i Hi Hp).
Qed.

Section OneHandler.
Variable E : Externals.
Variables (h : ptr) (hd : ColorHandler) (gs : list string) (bound : list Attr).
Variables (sa : list (list string)) (aa : list (list Attr))
          (hs : list ColorHandler).
Variable calls : list (Context * Record).
Hypothesis Hh : hs !! h = Some hd.
Hypothesis Hgs : slice_elems sa (groups hd) = Some gs.
Hypothesis Hbound : slice_elems aa (attrs hd) = Some bound.
Hypothesis Hmu : mu hd = false.

Local Abbreviation inv := (one_handler_inv E h hd gs bound sa aa hs calls).

Lemma h_in_range : h < length hs.
Proof. apply lookup_lt_is_Some. eauto. Qed.

Lemma holds_in_inv b e tr :
  holds (mkState (mkMem (sa ++ e) aa (<[h := with_mu hd b]> hs)) tr) h
        (with_mu hd b) gs bound.
Proof.
  unfold holds. cbn [mem handlers strArrays attrArrays with_mu groups attrs].
  split; [|split; [by apply slice_elems_ext|done]].
  apply list_lookup_insert_eq, h_in_range.
Qed.

Lemma one_handler_inv_init tr :
  inv
    (mkWorld (mkState (mkMem sa aa hs) tr)
             (map (fun c => GCall h (fst c) (snd c)) calls) []).
Proof.
  exists false, [], tr, []. cbn [shared goroutines arrived].
  split.
  { rewrite app_nil_r. rewrite <- Hmu, with_mu_same.
    by rewrite list_insert_id. }
  split; [apply stage_of_calls|].
  assert (Forall (fun g => is_writing g = false)
                 (map (fun c => GCall h (fst c) (snd c)) calls)) as Hnw
    by (apply Forall_map, Forall_forall; by intros).
  split; [done|]. split; [by rewrite lines_of_calls|].
  split; [|constructor].
  unfold arrived_bytes. cbn [arrived map]. by rewrite pending_none.
Qed.

Lemma lock_taken e tr :
  (Lock h ;;; load h)
    (mkState (mkMem (sa ++ e) aa (<[h := with_mu hd false]> hs)) tr)
  = Ok (with_mu hd true)
       (mkState (mkMem (sa ++ e) aa (<[h := with_mu hd true]> hs))
                (tr ++ [EvLock h])).
Proof.
  erewrite bind_Ok; cycle 1.
  { apply (Lock_free h (with_mu hd false)); [|done].
    apply list_lookup_insert_eq, h_in_range. }
  rewrite list_insert_insert_eq, with_mu_twice.
  apply load_Ok. cbn [mem handlers].
  apply list_lookup_insert_eq, h_in_range.
Qed.

Lemma lock_busy e tr :
  (Lock h ;;; load h)
    (mkState (mkMem (sa ++ e) aa (<[h := with_mu hd true]> hs)) tr)
  = Stopped Deadlock
      (mkState (mkMem (sa ++ e) aa (<[h := with_mu hd true]> hs)) tr).
Proof.
  apply bind_Stopped.
  apply (Lock_held h (with_mu hd true)); [|done].
  cbn [mem handlers]. apply list_lookup_insert_eq, h_in_range.
Qed.

Lemma lock_released e tr :
  Unlock h (mkState (mkMem (sa ++ e) aa (<[h := with_mu hd true]> hs)) tr)
  = Ok tt (mkState (mkMem (sa ++ e) aa (<[h := with_mu hd false]> hs))
                   (tr ++ [EvUnlock h])).
Proof.
  rewrite (Unlock_Ok h (with_mu hd true))
    by apply list_lookup_insert_eq, h_in_range.
  by rewrite list_insert_insert_eq, with_mu_twice.
Qed.

Lemma one_handler_inv_step i w w' :
  inv w -> step E i w = Some w' -> inv w'.
Proof.
  intros (b & e & tr & order & Hs & Hst & Hw & Hperm & Hbytes & Hsink) Hstep.
  unfold one_handler_inv, arrived_bytes in *. unfold step in Hstep.
  destruct (goroutines w !! i) as [g|] eqn:Hg; [|done].
  assert (i < length (goroutines w)) as Hi
    by (apply lookup_lt_is_Some; eauto).
  destruct (Forall2_lookup_r _ _ _ _ _ Hst Hg) as (call & Hcall & Hstage).
  assert (forall g',
             stage_of E h hd gs bound call g' ->
             Forall2 (stage_of E h hd gs bound) calls (<[i := g']> (goroutines w)))
    as Hst'.
  { intros g' Hg'. rewrite <- (list_insert_id calls i call Hcall).
    by apply Forall2_insert. }
  rewrite Hs in Hstep.
  destruct Hstage as [Hg1|[Hg1|[[rest Hg1]|[Hg1|Hg1]]]]; subst g;
    cbn [step_goroutine] in Hstep.
  - (* the hook, then the line *)
    destruct (Handle_format_spec E h (fst call) (snd call) _ _ gs bound
                                 (holds_in_inv b e tr)) as [e1 Hf].
    rewrite Hf in Hstep. cbn [mem trace strArrays attrArrays handlers] in Hstep.
    assert (exists g' e' tr',
               w' = mkWorld (mkState (mkMem (sa ++ e') aa
                                            (<[h := with_mu hd b]> hs)) tr')
                            (<[i := g']> (goroutines w)) (arrived w)
               /\ stage_of E h hd gs bound call g'
               /\ is_writing g' = false /\ line_of g' = None)
      as (g' & e' & tr' & -> & Hg' & Hnw & Hnl).
    { destruct (hook_panicked E (with_mu hd b) (fst call) (snd call));
        injection Hstep as <-.
      - eexists GStopped, e, _. split; [done|]. split; [|done].
        by right; right; right; right.
      - eexists (GWaiting h _), (e ++ e1), _. split; [by rewrite app_assoc|].
        split; [|done]. by right; left. }
    exists b, e', tr', order. cbn [shared goroutines arrived].
    split; [done|]. split; [by apply Hst'|].
    split; [by apply (lock_matches_idle b _ i (GCall h (fst call) (snd call)))|].
    split; [by rewrite (lines_of_insert_same _ i _ _ Hg)|].
    split; [|done].
    by rewrite (pending_insert_same _ i _ _ Hg)
      by (by rewrite pending_not_writing).
  - (* at the lock *)
    destruct b.
    + by rewrite lock_busy in Hstep.
    + rewrite lock_taken in Hstep. injection Hstep as <-.
      cbn [Writer_ with_mu]. rewrite render_line_body.
      set (line := render_line E gs bound (snd call)).
      exists true, e, (tr ++ [EvLock h]), (order ++ [line]).
      cbn [shared goroutines arrived].
      split; [done|]. split.
      { apply Hst'. right; right; left. by eexists. }
      split.
      { exists i, (GWriting h (Writer_ hd) line (bytes_of line)).
        split; [by apply list_lookup_insert_eq|]. split; [done|].
        intros j g' Hj Hl. rewrite list_lookup_insert_ne in Hl by done.
        cbn [lock_matches] in Hw. rewrite Forall_forall in Hw.
        apply Hw. by apply list_elem_of_lookup_2 in Hl. }
      split.
      { rewrite (lines_of_insert_new _ i _ _ line Hg) by done.
        by rewrite Hperm. }
      split; [|done].
      rewrite pending_one.
      * cbn [pending]. rewrite map_app, concat_app. cbn [map concat].
        rewrite app_nil_r. rewrite <- Hbytes.
        by rewrite pending_none, app_nil_r.
      * done.
      * intros j g' Hj Hl. cbn [lock_matches] in Hw.
        rewrite Forall_forall in Hw.
        apply Hw. by apply list_elem_of_lookup_2 in Hl.
  - (* inside Write *)
    destruct b; cbn [lock_matches] in Hw.
    2:{ rewrite Forall_forall in Hw.
        assert (is_writing
                  (GWriting h (Writer_ hd)
                            (render_line E gs bound (snd call)) rest) = false)
          by (apply Hw; by apply list_elem_of_lookup_2 in Hg).
        done. }
    destruct Hw as (i0 & g0 & Hi0 & Hw0 & Hothers).
    assert (i0 = i) as ->.
    { destruct (decide (i0 = i)) as [|Hne]; [done|].
      by pose proof (Hothers i _ ltac:(done) Hg). }
    pose proof Hbytes as Hbytes'.
    rewrite <- (list_insert_id (goroutines w) i _ Hg) in Hbytes'.
    rewrite pending_one in Hbytes' by done. cbn [pending] in Hbytes'.
    destruct rest as [|c rest'].
    + (* the write has returned *)
      rewrite lock_released in Hstep. injection Hstep as <-.
      exists false, e, (tr ++ [EvUnlock h]), order.
      cbn [shared goroutines arrived].
      split; [done|]. split.
      { apply Hst'. by right; right; right; left. }
      split.
      { cbn [lock_matches]. apply Forall_forall. intros g' Hin.
        apply list_elem_of_lookup in Hin as [j Hj].
        destruct (decide (j = i)) as [->|Hne].
        - rewrite list_lookup_insert_eq in Hj by done. by injection Hj as <-.
        - rewrite list_lookup_insert_ne in Hj by done. by apply (Hothers j). }
      split; [by rewrite (lines_of_insert_same _ i _ _ Hg)|].
      split; [|done].
      rewrite pending_one by done. cbn [pending].
      by rewrite app_nil_r in *.
    + (* one more byte *)
      injection Hstep as <-.
      exists true, e, tr, order.
      cbn [shared goroutines arrived].
      split; [done|]. split.
      { apply Hst'. right; right; left. by eexists. }
      split.
      { exists i, (GWriting h (Writer_ hd)
                            (render_line E gs bound (snd call)) rest').
        split; [by apply list_lookup_insert_eq|]. split; [done|].
        intros j g' Hj Hl. rewrite list_lookup_insert_ne in Hl by done.
        by apply (Hothers j). }
      split; [by rewrite (lines_of_insert_same _ i _ _ Hg)|].
      split.
      * rewrite pending_one by done. cbn [pending].
        rewrite map_app, <- app_assoc. cbn [map snd app].
        exact Hbytes'.
      * apply Forall_app. split; [done|]. by repeat constructor.
  - done.
  - done.
Qed.

Lemma one_handler_inv_run schedule :
  forall w w',
    inv w -> run E schedule w = Some w' -> inv w'.
Proof.
  induction schedule as [|i rest IH]; intros w w' Hinv Hrun; simpl in Hrun.
  - by injection Hrun as <-.
  - destruct (step E i w) as [w1|] eqn:Hstep; [|done].
    eapply IH; [|exact Hrun]. by eapply one_handler_inv_step.
Qed.

End OneHandler.

Lemma lines_of_all_done E h hd gs bound calls l :
  Forall2 (stage_of E h hd gs bound) calls l ->
  all_done l = true ->
  lines_of l = map (fun c => render_line E gs bound (snd c)) calls
  /\ concat (map pending l) = [].
Proof.
  induction 1 as [|c g calls l Hc _ IH]; [done|].
  cbn [all_done forallb]. intros Hall.
  apply andb_true_iff in Hall as [Hg Hl].
  destruct (IH Hl) as [IH1 IH2].
  destruct Hc as [Hg1|[Hg1|[[rest Hg1]|[Hg1|Hg1]]]]; subst g; try done.
  simpl. by rewrite IH1, IH2.
Qed.

(** Whatever the schedule, goroutines that dispatch through one handler
    put whole lines into a sink that takes what it is handed (its [Write]
    reports no error): the bytes that have arrived, with what the
    goroutine inside [Write] has still to hand over, are the lines of
    the goroutines that have passed the lock, in some order; when all
    calls have returned, the sink holds the rendered lines of all the
    records, each once, in some order. *)
Theorem one_handler_lines_arrive_whole
    (E : Externals) (h : ptr) (hd : ColorHandler) (gs : list string)
    (bound : list Attr) (calls : list (Context * Record)) (s : State)
    (schedule : list nat) (w : World) :
  holds s h hd gs bound ->
  mu hd = false ->
  (forall data, write_error E (Writer_ hd) data = None) ->
  run E schedule
      (mkWorld s (map (fun c => GCall h (fst c) (snd c)) calls) []) = Some w ->
  exists order,
    order ≡ₚ lines_of (goroutines w)
    /\ arrived_bytes w ++ concat (map pending (goroutines w))
       = concat (map bytes_of order)
    /\ Forall (fun p => fst p = Writer_ hd) (arrived w)
    /\ (all_done (goroutines w) = true ->
        order ≡ₚ map (fun c => render_line E gs bound (snd c)) calls
        /\ arrived_bytes w = concat (map bytes_of order)).
Proof.
  intros (Hh & Hg & Ha) Hmu _ Hrun.
  destruct s as [[sa aa hs] tr]. cbn [mem handlers strArrays attrArrays] in *.
  pose proof (one_handler_inv_run E h hd gs bound sa aa hs calls Hh Hg Ha
                schedule _ w
                (one_handler_inv_init E h hd gs bound sa aa hs calls Hh Hmu tr)
                Hrun)
    as (b & e & tr' & order & Hs & Hst & Hw & Hperm & Hbytes & Hsink).
  exists order. split; [done|]. split; [done|]. split; [done|].
  intros Hall.
  destruct (lines_of_all_done E h hd gs bound calls _ Hst Hall) as [Hl Hp].
  split; [by rewrite Hperm, Hl|].
  by rewrite Hp, app_nil_r in Hbytes.
Qed.

(** Three records through the root handler of the test bench, under a
    schedule that lets every goroutine assemble its line first. *)
Lemma one_handler_lines_arrive_whole_witness :
  let calls := [(0, recordOne); (0, recordTwo); (0, recordOne)] in
  let schedule := [0; 1; 2; 1] ++ repeat 1 20 ++ [2] ++ repeat 2 20
                  ++ [0; 0; 0] in
  holds benchState 0 (mkColorHandler (Sink 0) None nilSlice nilSlice false) [] []
  /\ (forall data, write_error testEnv (Sink 0) data = None)
  /\ exists w,
      run testEnv schedule
          (mkWorld benchState (map (fun c => GCall 0 (fst c) (snd c)) calls) [])
      = Some w
      /\ exists order,
          order ≡ₚ lines_of (goroutines w)
          /\ arrived_bytes w ++ concat (map pending (goroutines w))
             = concat (map bytes_of order).
Proof.
  intros calls schedule.
  assert (holds benchState 0
                (mkColorHandler (Sink 0) None nilSlice nilSlice false) [] [])
    as H by (repeat split; vm_compute; reflexivity).
  split; [exact H|]. split; [reflexivity|].
  assert (exists w,
             run testEnv schedule
                 (mkWorld benchState
                          (map (fun c => GCall 0 (fst c) (snd c)) calls) [])
             = Some w) as [w Hrun] by (eexists; vm_compute; reflexivity).
  exists w. split; [exact Hrun|].
  destruct (one_handler_lines_arrive_whole testEnv 0 _ [] [] calls benchState
              schedule w H eq_refl (fun _ => eq_refl) Hrun)
    as (order & Hperm & Hbytes & _).
  exists order. split; [exact Hperm|exact Hbytes].
Defined.

(* ================================================================== *)
(** ** Further properties of the handler *)

Lemma nilSlice_elems {A} (st : list (list A)) : slice_elems st nilSlice = Some [].
Proof. reflexivity. Qed.

(** [NewColorHandler] on a usable writer (one whose [Write] returns; a
    nil writer is stored unchecked by the code and is not a [Writer]
    here) works in any state: it returns a new handler on the given
    writer, which holds no group, no attribute and no hook, and leaves
    all that existed; a dispatch through the new handler returns what
    the writer reports after one write of the line without prefix and
    bound attributes, and calls no hook, whatever the level. *)
Theorem NewColorHandler_fresh
    (E : Externals) (w : Writer) (s : State) (ctx : Context) (r : Record) :
  exists h s',
    NewColorHandler w s = Ok h s'
    /\ h = length (handlers (mem s))
    /\ trace s' = trace s
    /\ extends (mem s) (mem s')
    /\ holds s' h (mkColorHandler w None nilSlice nilSlice false) [] []
    /\ dispatch E h ctx r s'
       = (Returned (write_error E w (render_line E [] [] r)),
          [EvLock h; EvWrite w (render_line E [] [] r); EvUnlock h]).
Proof.
  destruct s as [[sa aa hs] tr].
  eexists _, _. split; [reflexivity|].
  cbn [mem trace handlers strArrays attrArrays].
  split; [done|]. split; [done|].
  assert (holds (mkState (mkMem sa aa (hs ++ [mkColorHandler w None nilSlice
                                                nilSlice false])) tr)
                (length hs) (mkColorHandler w None nilSlice nilSlice false)
                [] []) as Hholds.
  { unfold holds. cbn [mem handlers strArrays attrArrays groups attrs].
    split; [apply lookup_last|]. split; apply nilSlice_elems. }
  split.
  { repeat split; cbn [strArrays attrArrays handlers].
    - exists []. by rewrite app_nil_r.
    - exists []. by rewrite app_nil_r.
    - by eexists. }
  split; [exact Hholds|].
  by rewrite (dispatch_returns E _ ctx r _ _ [] [] Hholds eq_refl eq_refl).
Qed.

(** One derivation, of either kind. *)
Lemma derive_spec E d h s hd gs bound :
  holds s h hd gs bound ->
  exists s' hd',
    derive E d h s = Ok (length (handlers (mem s))) s'
    /\ trace s' = trace s
    /\ extends (mem s) (mem s')
    /\ handlers (mem s') = handlers (mem s) ++ [hd']
    /\ holds s' (length (handlers (mem s))) hd'
             (gs ++ chain_groups [d]) (bound ++ chain_attrs [d])
    /\ Writer_ hd' = Writer_ hd /\ HookFn hd' = HookFn hd /\ mu hd' = false.
Proof.
  intros Hholds. destruct d as [name|new_attrs]; cbn [derive chain_groups chain_attrs].
  - destruct (WithGroup_spec E h name s hd gs bound Hholds)
      as (s' & g1 & Hrun & Htr & Hext & Hhs & H').
    exists s', (mkColorHandler (Writer_ hd) (HookFn hd) g1 (attrs hd) false).
    rewrite app_nil_r. by repeat (split; [done|]).
  - destruct (WithAttrs_spec E h new_attrs s hd gs bound Hholds)
      as (s' & a1 & Hrun & Htr & Hext & Hhs & H').
    exists s', (mkColorHandler (Writer_ hd) (HookFn hd) (groups hd) a1 false).
    rewrite !app_nil_r. by repeat (split; [done|]).
Qed.

(** What a dispatch shows apart from the identity of the handler: how it
    ends, what it writes, which hooks it calls. *)
Lemma dispatch_spec_same_view E h1 h2 hd1 hd2 gs bound ctx r :
  Writer_ hd1 = Writer_ hd2 -> HookFn hd1 = HookFn hd2 -> mu hd1 = mu hd2 ->
  fst (dispatch_spec E h1 hd1 gs bound ctx r)
  = fst (dispatch_spec E h2 hd2 gs bound ctx r)
  /\ written (snd (dispatch_spec E h1 hd1 gs bound ctx r))
     = written (snd (dispatch_spec E h2 hd2 gs bound ctx r))
  /\ List.filter is_hook_event (snd (dispatch_spec E h1 hd1 gs bound ctx r))
     = List.filter is_hook_event (snd (dispatch_spec E h2 hd2 gs bound ctx r)).
Proof.
  intros Hw Hf Hm. unfold dispatch_spec, hook_panicked, hook_events.
  rewrite Hw, Hf, Hm.
  destruct (HookFn hd2) as [f|]; [|by destruct (mu hd2)].
  destruct (LevelError <=? rLevel r)%Z; cbn [andb];
    [|by destruct (mu hd2)].
  destruct (Hook_panics E f ctx r); [done|]. by destruct (mu hd2).
Qed.

(** A chain of derivations, by induction on the chain: what the handler
    it returns holds. *)
Lemma derive_chain_spec
    (E : Externals) (ds : list Derivation) (h : ptr) (s : State)
    (hd : ColorHandler) (gs : list string) (bound : list Attr) :
  holds s h hd gs bound ->
  mu hd = false ->
  exists h' s' hd',
    derive_chain E ds h s = Ok h' s'
    /\ trace s' = trace s
    /\ extends (mem s) (mem s')
    /\ holds s' h' hd' (gs ++ chain_groups ds) (bound ++ chain_attrs ds)
    /\ Writer_ hd' = Writer_ hd /\ HookFn hd' = HookFn hd /\ mu hd' = false.
Proof.
  revert h s hd gs bound.
  induction ds as [|d ds IH]; intros h s hd gs bound Hholds Hmu.
  - exists h, s, hd. cbn [derive_chain chain_groups chain_attrs].
    rewrite !app_nil_r. split; [done|]. split; [done|].
    split; [apply extends_refl|]. by repeat (split; [done|]).
  - destruct (derive_spec E d h s hd gs bound Hholds)
      as (s1 & hd1 & Hrun1 & Htr1 & Hext1 & _ & Hholds1 & Hw1 & Hf1 & Hmu1).
    destruct (IH _ s1 hd1 _ _ Hholds1 Hmu1)
      as (h' & s' & hd' & Hrun & Htr & Hext & Hholds' & Hw & Hf & Hmu').
    exists h', s', hd'. split.
    { cbn [derive_chain]. by rewrite (bind_Ok _ _ _ _ _ Hrun1). }
    split; [congruence|]. split; [by eapply extends_trans|].
    assert (gs ++ chain_groups (d :: ds)
            = (gs ++ chain_groups [d]) ++ chain_groups ds) as Hgs.
    { rewrite <- app_assoc. f_equal. destruct d; simpl; by rewrite ?app_nil_r. }
    assert (bound ++ chain_attrs (d :: ds)
            = (bound ++ chain_attrs [d]) ++ chain_attrs ds) as Hbs.
    { rewrite <- app_assoc. f_equal. destruct d; simpl; by rewrite ?app_nil_r. }
    rewrite Hgs, Hbs. split; [done|].
    split; [congruence|]. split; [congruence|]. done.
Qed.

(** A chain of derivations accumulates: the handler it returns holds the
    group path of the receiver followed by the group names of the chain,
    and the bound attributes of the receiver followed by the attributes of
    the chain, both in the order of the calls; it has the writer and the
    hook of the receiver; nothing that existed is modified; and it
    dispatches the line with that prefix and those attributes: it returns
    what the writer reports after one write of that line, behind the hook
    of the receiver. *)
Theorem derive_chain_accumulates
    (E : Externals) (ds : list Derivation) (h : ptr) (s : State)
    (hd : ColorHandler) (gs : list string) (bound : list Attr) :
  holds s h hd gs bound ->
  mu hd = false ->
  exists h' s' hd',
    derive_chain E ds h s = Ok h' s'
    /\ trace s' = trace s
    /\ extends (mem s) (mem s')
    /\ holds s' h' hd' (gs ++ chain_groups ds) (bound ++ chain_attrs ds)
    /\ Writer_ hd' = Writer_ hd /\ HookFn hd' = HookFn hd /\ mu hd' = false
    /\ forall ctx r,
        hook_panicked E hd ctx r = false ->
        fst (dispatch E h' ctx r s')
        = Returned (write_error E (Writer_ hd)
                      (render_line E (gs ++ chain_groups ds)
                                   (bound ++ chain_attrs ds) r))
        /\ written (snd (dispatch E h' ctx r s'))
           = [render_line E (gs ++ chain_groups ds)
                          (bound ++ chain_attrs ds) r].
Proof.
  intros Hholds Hmu.
  destruct (derive_chain_spec E ds h s hd gs bound Hholds Hmu)
    as (h' & s' & hd' & Hrun & Htr & Hext & Hholds' & Hw & Hf & Hmu').
  exists h', s', hd'. repeat (split; [done|]).
  intros ctx r Hp.
  assert (hook_panicked E hd' ctx r = false) as Hp'
    by (unfold hook_panicked in *; by rewrite Hf).
  rewrite <- Hw. split.
  - by rewrite (dispatch_returns E h' ctx r s' hd' _ _ Hholds' Hp' Hmu').
  - exact (dispatch_written E h' ctx r s' hd' _ _ Hholds' Hp' Hmu').
Qed.

(** The order in which groups and attributes are interleaved in a chain
    does not show: two chains from one handler with the same group names
    and the same attributes, each in the same order, dispatch every
    record alike (same ending, same line written, same hook calls). *)
Theorem derive_chain_order_of_kinds
    (E : Externals) (ds1 ds2 : list Derivation) (h : ptr) (s : State)
    (hd : ColorHandler) (gs : list string) (bound : list Attr) :
  holds s h hd gs bound ->
  mu hd = false ->
  chain_groups ds1 = chain_groups ds2 ->
  chain_attrs ds1 = chain_attrs ds2 ->
  exists h1 s1 h2 s2,
    derive_chain E ds1 h s = Ok h1 s1
    /\ derive_chain E ds2 h s = Ok h2 s2
    /\ forall ctx r,
        fst (dispatch E h1 ctx r s1) = fst (dispatch E h2 ctx r s2)
        /\ written (snd (dispatch E h1 ctx r s1))
           = written (snd (dispatch E h2 ctx r s2))
        /\ List.filter is_hook_event (snd (dispatch E h1 ctx r s1))
           = List.filter is_hook_event (snd (dispatch E h2 ctx r s2)).
Proof.
  intros Hholds Hmu Hg Ha.
  destruct (derive_chain_spec E ds1 h s hd gs bound Hholds Hmu)
    as (h1 & s1 & hd1 & Hrun1 & _ & _ & Hholds1 & Hw1 & Hf1 & Hmu1).
  destruct (derive_chain_spec E ds2 h s hd gs bound Hholds Hmu)
    as (h2 & s2 & hd2 & Hrun2 & _ & _ & Hholds2 & Hw2 & Hf2 & Hmu2).
  exists h1, s1, h2, s2. split; [done|]. split; [done|].
  intros ctx r.
  rewrite (dispatch_holds E h1 ctx r s1 hd1 _ _ Hholds1),
          (dispatch_holds E h2 ctx r s2 hd2 _ _ Hholds2), Hg, Ha.
  apply dispatch_spec_same_view; congruence.
Qed.

(** [root.WithGroup(http).WithAttrs(env=prod)] and
    [root.WithAttrs(env=prod).WithGroup(http)] on the test bench. *)
Lemma derive_chain_order_of_kinds_witness :
  let env := [MkAttr "env" (StringValue "prod")] in
  holds benchState 0 (mkColorHandler (Sink 0) None nilSlice nilSlice false) [] []
  /\ exists h1 s1 h2 s2,
      derive_chain testEnv [ByGroup "http"; ByAttrs env] 0 benchState = Ok h1 s1
      /\ derive_chain testEnv [ByAttrs env; ByGroup "http"] 0 benchState
         = Ok h2 s2
      /\ written (snd (dispatch testEnv h1 0 recordOne s1))
         = written (snd (dispatch testEnv h2 0 recordOne s2)).
Proof.
  intros env.
  assert (holds benchState 0
                (mkColorHandler (Sink 0) None nilSlice nilSlice false) [] [])
    as H by (repeat split; vm_compute; reflexivity).
  split; [exact H|].
  destruct (derive_chain_order_of_kinds testEnv [ByGroup "http"; ByAttrs env]
              [ByAttrs env; ByGroup "http"] 0 benchState _ [] [] H
              eq_refl eq_refl eq_refl)
    as (h1 & s1 & h2 & s2 & Hr1 & Hr2 & Hsame).
  exists h1, s1, h2, s2. split; [exact Hr1|]. split; [exact Hr2|].
  exact (proj1 (proj2 (Hsame 0 recordOne))).
Defined.

(** The chain of the package's README on the test bench. *)
Lemma derive_chain_accumulates_witness :
  holds benchState 0 (mkColorHandler (Sink 0) None nilSlice nilSlice false) [] []
  /\ exists h' s' hd',
      derive_chain testEnv [ByGroup "storage"; ByGroup "postgres"] 0 benchState
      = Ok h' s'
      /\ holds s' h' hd' ["storage"; "postgres"] [].
Proof.
  assert (holds benchState 0
                (mkColorHandler (Sink 0) None nilSlice nilSlice false) [] [])
    as H by (repeat split; vm_compute; reflexivity).
  split; [exact H|].
  destruct (derive_chain_accumulates testEnv
              [ByGroup "storage"; ByGroup "postgres"] 0 benchState _ [] [] H
              eq_refl)
    as (h' & s' & hd' & Hrun & _ & _ & Hholds & _).
  exists h', s', hd'. split; [exact Hrun|exact Hholds].
Defined.

(** A derivation from one handler leaves every handler that exists,
    siblings derived earlier from the same receiver included: the new
    handler is none of them, each holds what it held, and each dispatches
    every record as before. *)
Theorem derive_leaves_every_handler
    (E : Externals) (d : Derivation) (h : ptr) (s : State)
    (hd : ColorHandler) (gs : list string) (bound : list Attr)
    (k : ptr) (hdk : ColorHandler) (gsk : list string) (boundk : list Attr) :
  holds s h hd gs bound ->
  holds s k hdk gsk boundk ->
  exists h2 s2,
    derive E d h s = Ok h2 s2
    /\ h2 <> k
    /\ holds s2 k hdk gsk boundk
    /\ forall ctx r, dispatch E k ctx r s2 = dispatch E k ctx r s.
Proof.
  intros Hholds Hk.
  destruct (derive_spec E d h s hd gs bound Hholds)
    as (s2 & hd2 & Hrun & _ & Hext & _).
  assert (k < length (handlers (mem s))) as Hlt
    by (apply lookup_lt_is_Some; destruct Hk as (Hh & _); by eexists).
  pose proof (holds_extends _ _ _ _ _ _ Hk Hext) as Hk2.
  exists (length (handlers (mem s))), s2.
  split; [done|]. split; [lia|]. split; [done|].
  intros ctx r.
  by rewrite (dispatch_holds E k ctx r s2 hdk gsk boundk Hk2),
             (dispatch_holds E k ctx r s hdk gsk boundk Hk).
Qed.

(** Deriving from handler 1 of the test bench leaves handler 2, which was
    derived from handler 1 before. *)
Lemma derive_leaves_every_handler_witness :
  holds benchState 1 (mkColorHandler (Sink 0) None (mkSlice 1 0 1 2) nilSlice
                                     false) ["x"] []
  /\ holds benchState 2 benchHandler ["x"] [MkAttr "service" (StringValue "api")]
  /\ exists h2 s2,
      derive testEnv (ByAttrs [MkAttr "other" (BoolValue true)]) 1 benchState
      = Ok h2 s2
      /\ holds s2 2 benchHandler ["x"] [MkAttr "service" (StringValue "api")].
Proof.
  assert (holds benchState 1
                (mkColorHandler (Sink 0) None (mkSlice 1 0 1 2) nilSlice false)
                ["x"] []) as H1 by (repeat split; vm_compute; reflexivity).
  assert (holds benchState 2 benchHandler ["x"]
                [MkAttr "service" (StringValue "api")]) as H2
    by (repeat split; vm_compute; reflexivity).
  split; [exact H1|]. split; [exact H2|].
  destruct (derive_leaves_every_handler testEnv
              (ByAttrs [MkAttr "other" (BoolValue true)]) 1 benchState _ _ _
              2 _ _ _ H1 H2) as (h2 & s2 & Hrun & _ & Hk & _).
  exists h2, s2. split; [exact Hrun|exact Hk].
Defined.

(** Whatever way a call of [Handle] ends, in memory it has only allocated
    arrays: the handler structs are as they were, the mutex is free
    again if it was free. *)
Lemma Handle_frame E h ctx r s hd gs bound :
  holds s h hd gs bound ->
  exists e,
    mem (state_of (Handle E h ctx r s))
    = mkMem (strArrays (mem s) ++ e) (attrArrays (mem s)) (handlers (mem s)).
Proof.
  intros Hholds.
  destruct (Handle_format_spec E h ctx r s hd gs bound Hholds) as [e Hf].
  destruct (hook_panicked E hd ctx r) eqn:Hp.
  - exists []. unfold Handle. rewrite (bind_Stopped _ _ _ _ _ Hf).
    cbn [state_of mem]. rewrite app_nil_r. by destruct s as [[? ? ?] ?].
  - destruct (mu hd) eqn:Hmu.
    + exists e. unfold Handle. rewrite (bind_Ok _ _ _ _ _ Hf).
      destruct Hholds as (Hh & _).
      erewrite bind_Stopped by (eapply Lock_held; eauto). done.
    + destruct (Handle_returns E h ctx r s hd gs bound Hholds Hp Hmu)
        as [e' ->].
      by exists e'.
Qed.

(** Dispatching has no memory: after a call of [Handle], however it
    ended (returned, with or without an error of the sink; stopped by a
    panicking hook; blocked), every handler holds what it held and
    dispatches every record as before; in particular the same record
    dispatched again through the same handler gives the same output. *)
Theorem Handle_leaves_every_handler
    (E : Externals) (h : ptr) (ctx : Context) (r : Record) (s : State)
    (hd : ColorHandler) (gs : list string) (bound : list Attr)
    (k : ptr) (hdk : ColorHandler) (gsk : list string) (boundk : list Attr) :
  holds s h hd gs bound ->
  holds s k hdk gsk boundk ->
  let s' := state_of (Handle E h ctx r s) in
  extends (mem s) (mem s')
  /\ handlers (mem s') = handlers (mem s)
  /\ holds s' k hdk gsk boundk
  /\ (forall ctx' r', dispatch E k ctx' r' s' = dispatch E k ctx' r' s)
  /\ dispatch E h ctx r s' = dispatch E h ctx r s.
Proof.
  intros Hholds Hk s'.
  destruct (Handle_frame E h ctx r s hd gs bound Hholds) as [e He].
  fold s' in He.
  assert (extends (mem s) (mem s')) as Hext.
  { rewrite He. repeat split; cbn [strArrays attrArrays handlers].
    - by exists e.
    - exists []. by rewrite app_nil_r.
    - exists []. by rewrite app_nil_r. }
  pose proof (holds_extends _ _ _ _ _ _ Hk Hext) as Hk'.
  pose proof (holds_extends _ _ _ _ _ _ Hholds Hext) as Hh'.
  split; [done|]. split; [by rewrite He|]. split; [done|]. split.
  - intros ctx' r'.
    by rewrite (dispatch_holds E k ctx' r' s' hdk gsk boundk Hk'),
               (dispatch_holds E k ctx' r' s hdk gsk boundk Hk).
  - by rewrite (dispatch_holds E h ctx r s' hd gs bound Hh'),
               (dispatch_holds E h ctx r s hd gs bound Hholds).
Qed.

Lemma Handle_leaves_every_handler_witness :
  holds benchState 2 benchHandler ["x"] [MkAttr "service" (StringValue "api")]
  /\ dispatch testEnv 2 0 recordOne
              (state_of (Handle testEnv 2 0 recordTwo benchState))
     = dispatch testEnv 2 0 recordOne benchState.
Proof.
  assert (holds benchState 2 benchHandler ["x"]
                [MkAttr "service" (StringValue "api")]) as H2
    by (repeat split; vm_compute; reflexivity).
  split; [exact H2|].
  exact (proj1 (proj2 (proj2 (proj2
           (Handle_leaves_every_handler testEnv 2 0 recordTwo benchState _ _ _
              2 _ _ _ H2 H2)))) 0 recordOne).
Defined.

Lemma render_attr_leaves E a :
  render_attr E a = render_attrs E (leaves a)
  /\ Forall (fun x => Value_Kind (Val x) <> KindGroup) (leaves a).
Proof.
  induction a as [key l IH|key v Hk] using Attr_nested_ind.
  - cbn [render_attr leaves]. unfold render_attrs.
    induction IH as [|x l [Hx Hlx] _ IHl]; [by split|].
    destruct IHl as [IH1 IH2]. cbn [map concat concat_strings].
    rewrite map_app, concat_strings_app. split.
    + rewrite IH1. f_equal. exact Hx.
    + by apply Forall_app.
  - assert (leaves (MkAttr key v) = [MkAttr key v]) as ->
      by (destruct v; try done; simpl in Hk; congruence).
    split.
    + unfold render_attrs. cbn [map concat_strings]. by rewrite sapp_nil_r.
    + by repeat constructor.
Qed.

(** Groups are flattened, whatever their depth: [processAttr] leaves in
    the buffer the attributes of the tree that are not groups, left to
    right, each as [ key=value] in its colours.  The keys of the groups
    and the group path of the handler have no part in it (in particular
    an empty group prints nothing); the trace is untouched. *)
Theorem processAttr_flattens_groups
    (E : Externals) (a : Attr) (h : ColorHandler) (buf : buffer) (s : State)
    (gs : list string) :
  slice_elems (strArrays (mem s)) (groups h) = Some gs ->
  exists s',
    processAttr E h buf a s
    = Ok (buf +:+ concat_strings
                    (map (fun x => colored E FgHiGreen (" " +:+ Key x +:+ "=")
                                   +:+ colored E FgHiYellow
                                         (fmt_v E (formatValue E (Val x))))
                         (leaves a))) s'
    /\ Forall (fun x => Value_Kind (Val x) <> KindGroup) (leaves a)
    /\ trace s' = trace s
    /\ handlers (mem s') = handlers (mem s).
Proof.
  intros Hg. destruct (processAttr_spec E a h buf s gs Hg) as [e Hrun].
  destruct (render_attr_leaves E a) as [Hr Hl].
  exists (mkState (mkMem (strArrays (mem s) ++ e) (attrArrays (mem s))
                         (handlers (mem s))) (trace s)).
  split; [|split; [exact Hl|split; reflexivity]].
  rewrite Hrun, Hr. f_equal. f_equal. unfold render_attrs.
  clear Hr Hrun. induction Hl as [|x l Hx _ IH]; [done|].
  cbn [map concat_strings]. rewrite IH. f_equal.
  destruct x as [key v]. cbn [Key Val] in *.
  by destruct v.
Qed.

(** A group inside a group, on a handler that has a group itself. *)
Lemma processAttr_flattens_groups_witness :
  let a := MkAttr "req"
             (GroupValue [MkAttr "id" (Int64Value 7);
                          MkAttr "user" (GroupValue
                                           [MkAttr "name" (StringValue "Alice")]);
                          MkAttr "empty" (GroupValue [])]) in
  slice_elems (strArrays (mem benchState)) (groups benchHandler) = Some ["x"]
  /\ exists s',
      processAttr testEnv benchHandler "msg" a benchState
      = Ok "msg id=7 name=Alice" s'.
Proof.
  intros a. split; [vm_compute; reflexivity|].
  destruct (processAttr_flattens_groups testEnv a benchHandler "msg" benchState
              ["x"] ltac:(vm_compute; reflexivity)) as (s' & Hrun & _).
  exists s'. exact Hrun.
Defined.

(** [SetHook] replaces the hook of its receiver and nothing else: the
    handler keeps its group path, attributes and writer; from then on an
    Error-level record calls the new hook first and no other, and after
    [SetHook(nil)] no record calls a hook; setting the hook twice is the
    same as setting the last one. *)
Theorem SetHook_replaces_hook
    (E : Externals) (h : ptr) (fn : option Hook) (s : State)
    (hd : ColorHandler) (gs : list string) (bound : list Attr) :
  holds s h hd gs bound ->
  exists s',
    SetHook h fn s = Ok tt s'
    /\ trace s' = trace s
    /\ holds s' h (mkColorHandler (Writer_ hd) fn (groups hd) (attrs hd) (mu hd))
             gs bound
    /\ (forall f ctx r,
           fn = Some f -> (LevelError <= rLevel r)%Z ->
           exists rest,
             snd (dispatch E h ctx r s') = EvHook f ctx r :: rest
             /\ no_hook_event rest)
    /\ (fn = None -> forall ctx r, no_hook_event (snd (dispatch E h ctx r s')))
    /\ (forall fn2, SetHook h fn2 s' = SetHook h fn2 s).
Proof.
  intros (Hh & Hg & Ha).
  destruct s as [[sa aa hs] tr]. cbn [mem handlers strArrays attrArrays] in *.
  assert (h < length hs) as Hlt by (apply lookup_lt_is_Some; eauto).
  set (hd' := mkColorHandler (Writer_ hd) fn (groups hd) (attrs hd) (mu hd)).
  exists (mkState (mkMem sa aa (<[h := hd']> hs)) tr).
  split; [by apply SetHook_spec|]. split; [done|].
  assert (holds (mkState (mkMem sa aa (<[h := hd']> hs)) tr) h hd' gs bound)
    as Hholds'.
  { unfold holds. cbn [mem handlers strArrays attrArrays].
    split; [by apply list_lookup_insert_eq|done]. }
  split; [exact Hholds'|]. split; [|split].
  - intros f ctx r -> Hle.
    rewrite (dispatch_holds E h ctx r _ hd' gs bound Hholds').
    destruct (dispatch_spec_events E h hd' gs bound ctx r) as (rest & -> & Hrest).
    exists rest. split; [|done].
    by rewrite (hook_events_fired hd' ctx r f eq_refl Hle).
  - intros -> ctx r.
    rewrite (dispatch_holds E h ctx r _ hd' gs bound Hholds').
    destruct (dispatch_spec_events E h hd' gs bound ctx r) as (rest & -> & Hrest).
    by rewrite (hook_events_no_hook hd' ctx r eq_refl).
  - intros fn2.
    rewrite (SetHook_spec h fn2 sa aa _ tr hd')
      by (by apply list_lookup_insert_eq).
    rewrite (SetHook_spec h fn2 sa aa hs tr hd) by done.
    by rewrite list_insert_insert_eq.
Qed.

Lemma SetHook_replaces_hook_witness :
  holds benchState 2 benchHandler ["x"] [MkAttr "service" (StringValue "api")]
  /\ exists s',
      SetHook 2 (Some 7) benchState = Ok tt s'
      /\ exists rest,
          snd (dispatch testEnv 2 0 (mkRecord testTime LevelError "broke" []) s')
          = EvHook 7 0 (mkRecord testTime LevelError "broke" []) :: rest.
Proof.
  assert (holds benchState 2 benchHandler ["x"]
                [MkAttr "service" (StringValue "api")]) as H2
    by (repeat split; vm_compute; reflexivity).
  split; [exact H2|].
  destruct (SetHook_replaces_hook testEnv 2 (Some 7) benchState _ _ _ H2)
    as (s' & Hrun & _ & _ & Hfire & _).
  exists s'. split; [exact Hrun|].
  destruct (Hfire 7 0 (mkRecord testTime LevelError "broke" []) eq_refl
                  ltac:(vm_compute; discriminate)) as (rest & Hev & _).
  exists rest. exact Hev.
Defined.

(** With colours off every line that [Handle] writes starts with a
    header of fifteen characters, [[HH:MM:SS] TAG ]: a bracket, two
    digits, a colon, two digits, a colon, two digits, a bracket, a blank,
    a tag of three characters, a blank; so the group prefix or the
    message begins in the same column whatever the record, its level and
    its instant. *)
Theorem line_header_has_fixed_width
    (E : Externals) (h : ptr) (ctx : Context) (r : Record) (s : State)
    (hd : ColorHandler) (gs : list string) (bound : list Attr) :
  holds s h hd gs bound ->
  hook_panicked E hd ctx r = false ->
  mu hd = false ->
  NoColor E = true ->
  exists header rest h1 h2 m1 m2 s1 s2,
    written (snd (dispatch E h ctx r s)) = [header +:+ rest]
    /\ String.length header = 15
    /\ header = "[" +:+ clock_text h1 h2 m1 m2 s1 s2 +:+ "] "
                +:+ level_tag (rLevel r) +:+ " "
    /\ forallb Json.is_digit [h1; h2; m1; m2; s1; s2] = true
    /\ String.length (level_tag (rLevel r)) = 3
    /\ rest = concat_strings (map (fun g => g +:+ ".") gs) +:+ rMessage r
              +:+ render_attrs E bound +:+ render_attrs E (rAttrs r)
              +:+ newline.
Proof.
  intros Hholds Hp Hmu Hplain.
  destruct (TimeOnly_digits (rTime r))
    as (h1 & h2 & m1 & m2 & s1 & s2 & Ht & Hdigits & _).
  exists (plain_header r), (concat_strings (map (fun g => g +:+ ".") gs)
                            +:+ rMessage r +:+ render_attrs E bound
                            +:+ render_attrs E (rAttrs r) +:+ newline),
         h1, h2, m1, m2, s1, s2.
  split; [|split; [|split; [|split; [exact Hdigits|split; [|done]]]]].
  - rewrite (dispatch_written E h ctx r s hd gs bound Hholds Hp Hmu).
    rewrite render_line_plain by done. unfold plain_header.
    by rewrite !sapp_assoc.
  - unfold plain_header. rewrite Ht, !sapp_length, level_tag_length.
    reflexivity.
  - unfold plain_header. by rewrite Ht.
  - apply level_tag_length.
Qed.

(** A Warn record at 09:05:03 through the handler of the test bench. *)
Lemma line_header_has_fixed_width_witness :
  holds benchState 2 benchHandler ["x"] [MkAttr "service" (StringValue "api")]
  /\ NoColor testEnv = true
  /\ exists header rest,
      written (snd (dispatch testEnv 2 0
                             (mkRecord earlyTime LevelWarn "slow" [])
                             benchState))
      = [header +:+ rest]
      /\ String.length header = 15
      /\ rest = "x.slow service=api" +:+ newline.
Proof.
  assert (holds benchState 2 benchHandler ["x"]
                [MkAttr "service" (StringValue "api")]) as H2
    by (repeat split; vm_compute; reflexivity).
  split; [exact H2|]. split; [reflexivity|].
  destruct (line_header_has_fixed_width testEnv 2 0
              (mkRecord earlyTime LevelWarn "slow" []) benchState _ _ _
              H2 eq_refl eq_refl eq_refl)
    as (header & rest & h1 & h2 & m1 & m2 & s1 & s2
        & Hwritten & Hlen & _ & _ & _ & Hrest).
  exists header, rest. split; [exact Hwritten|]. split; [exact Hlen|].
  exact Hrest.
Defined.

(** A sink that fails does not wedge the handler.  [Handle] returns the
    error of the sink as it is, after one write and no retry, and with
    the mutex released; the next dispatch through the same handler goes
    ahead in the same way. *)
Theorem Handle_after_failed_write
    (E : Externals) (h : ptr) (ctx ctx' : Context) (r r' : Record) (s : State)
    (hd : ColorHandler) (gs : list string) (bound : list Attr) :
  holds s h hd gs bound ->
  mu hd = false ->
  hook_panicked E hd ctx r = false ->
  hook_panicked E hd ctx' r' = false ->
  exists s1 s2,
    Handle E h ctx r s
    = Ok (write_error E (Writer_ hd) (render_line E gs bound r)) s1
    /\ Handle E h ctx' r' s1
       = Ok (write_error E (Writer_ hd) (render_line E gs bound r')) s2
    /\ holds s2 h hd gs bound
    /\ written (drop (length (trace s)) (trace s2))
       = [render_line E gs bound r; render_line E gs bound r'].
Proof.
  intros Hholds Hmu Hp Hp'.
  destruct (Handle_returns E h ctx r s hd gs bound Hholds Hp Hmu) as [e1 H1].
  set (s1 := mkState (mkMem (strArrays (mem s) ++ e1) (attrArrays (mem s))
                            (handlers (mem s)))
                     (trace s ++ hook_events hd ctx r
                      ++ [EvLock h;
                          EvWrite (Writer_ hd) (render_line E gs bound r);
                          EvUnlock h])) in *.
  assert (extends (mem s) (mem s1)) as Hext1.
  { repeat split; cbn [s1 mem strArrays attrArrays handlers].
    - by exists e1.
    - exists []. by rewrite app_nil_r.
    - exists []. by rewrite app_nil_r. }
  pose proof (holds_extends _ _ _ _ _ _ Hholds Hext1) as Hholds1.
  destruct (Handle_returns E h ctx' r' s1 hd gs bound Hholds1 Hp' Hmu)
    as [e2 H2].
  eexists s1, _. split; [exact H1|]. split; [exact H2|]. split.
  - eapply holds_extends; [exact Hholds1|].
    repeat split; cbn [mem strArrays attrArrays handlers].
    + by exists e2.
    + exists []. by rewrite app_nil_r.
    + exists []. by rewrite app_nil_r.
  - cbn [trace s1]. rewrite <- !app_assoc, drop_app_length.
    unfold written. rewrite !omap_app.
    assert (forall c x, omap (fun e => match e with
                                       | EvWrite _ data => Some data
                                       | _ => None
                                       end) (hook_events hd c x) = []) as Hnone.
    { intros c x. unfold hook_events. destruct (HookFn hd); [|done].
      by destruct (LevelError <=? rLevel x)%Z. }
    by rewrite !Hnone.
Qed.

(** Two records through a handler whose sink refuses every write. *)
Lemma Handle_after_failed_write_witness :
  holds benchState 2 benchHandler ["x"] [MkAttr "service" (StringValue "api")]
  /\ exists s1 s2,
      Handle failingEnv 2 0 recordOne benchState
      = Ok (Some "disk full") s1
      /\ Handle failingEnv 2 0 recordTwo s1 = Ok (Some "disk full") s2.
Proof.
  assert (holds benchState 2 benchHandler ["x"]
                [MkAttr "service" (StringValue "api")]) as H2
    by (repeat split; vm_compute; reflexivity).
  split; [exact H2|].
  destruct (Handle_after_failed_write failingEnv 2 0 0 recordOne recordTwo
              benchState _ _ _ H2 eq_refl eq_refl eq_refl)
    as (s1 & s2 & Hr1 & Hr2 & _).
  exists s1, s2. split; [exact Hr1|exact Hr2].
Defined.

Lemma well_formed_grown s s' :
  well_formed s -> extends (mem s) (mem s') ->
  handlers (mem s') = handlers (mem s) ->
  well_formed s'.
Proof.
  intros Hwf Hext Hhs h hd Hh. rewrite Hhs in Hh.
  destruct (Hwf h hd Hh) as (Hmu & gs & bound & Hholds).
  split; [done|]. exists gs, bound. by eapply holds_extends.
Qed.

Lemma well_formed_added s s' hd' gs' bound' :
  well_formed s -> extends (mem s) (mem s') ->
  handlers (mem s') = handlers (mem s) ++ [hd'] ->
  mu hd' = false ->
  holds s' (length (handlers (mem s))) hd' gs' bound' ->
  well_formed s'.
Proof.
  intros Hwf Hext Hhs Hmu' Hnew h hd Hh. rewrite Hhs in Hh.
  destruct (decide (h < length (handlers (mem s)))) as [Hlt|Hge].
  - rewrite lookup_app_l in Hh by done.
    destruct (Hwf h hd Hh) as (Hmu & gs & bound & Hholds).
    split; [done|]. exists gs, bound. by eapply holds_extends.
  - assert (h = length (handlers (mem s))) as ->.
    { apply lookup_lt_Some in Hh. rewrite length_app in Hh. simpl in Hh. lia. }
    rewrite lookup_last in Hh. injection Hh as <-.
    split; [done|]. by exists gs', bound'.
Qed.

Lemma well_formed_emptyState : well_formed emptyState.
Proof. intros h hd Hh. by destruct h. Qed.

Lemma call_keeps_well_formed E c s :
  well_formed s ->
  receivers_exist (length (handlers (mem s))) [c] = true ->
  (forall f ctx r, Hook_panics E f ctx r = false) ->
  exists s',
    call E c s = Ok tt s'
    /\ well_formed s'
    /\ length (handlers (mem s'))
       = match c with
         | CallNew _ | CallDerive _ _ => S (length (handlers (mem s)))
         | _ => length (handlers (mem s))
         end.
Proof.
  intros Hwf Hrecv Hhooks.
  assert (forall h, (h <? length (handlers (mem s)))%nat = true ->
                    exists hd gs bound, holds s h hd gs bound /\ mu hd = false)
    as Hget.
  { intros h Hlt. apply Nat.ltb_lt in Hlt.
    destruct (lookup_lt_is_Some_2 _ _ Hlt) as [hd Hh].
    destruct (Hwf h hd Hh) as (Hmu & gs & bound & Hholds).
    by exists hd, gs, bound. }
  destruct c as [w|d h|h fn|h ctx r]; cbn [receivers_exist call] in *.
  - destruct s as [[sa aa hs] tr]. eexists. split; [reflexivity|].
    cbn [mem handlers]. split; [|by rewrite length_app, Nat.add_comm].
    eapply (well_formed_added _ _ _ [] [] Hwf);
      cbn [mem handlers strArrays attrArrays]; try done.
    + repeat split; cbn [strArrays attrArrays handlers].
      * exists []. by rewrite app_nil_r.
      * exists []. by rewrite app_nil_r.
      * by eexists.
    + unfold holds. cbn [mem handlers strArrays attrArrays groups attrs].
      split; [apply lookup_last|done].
  - apply andb_true_iff in Hrecv as [Hlt _].
    destruct (Hget h Hlt) as (hd & gs & bound & Hholds & Hmu).
    destruct (derive_spec E d h s hd gs bound Hholds)
      as (s' & hd' & Hrun & _ & Hext & Hhs & Hholds' & _ & _ & Hmu').
    exists s'. split; [by rewrite (bind_Ok _ _ _ _ _ Hrun)|]. split.
    + by eapply well_formed_added.
    + by rewrite Hhs, length_app, Nat.add_comm.
  - apply andb_true_iff in Hrecv as [Hlt _].
    destruct (Hget h Hlt) as (hd & gs & bound & (Hh & Hg & Ha) & Hmu).
    destruct s as [[sa aa hs] tr]. cbn [mem handlers strArrays attrArrays] in *.
    eexists. split; [by apply SetHook_spec|].
    cbn [mem handlers]. split; [|by rewrite length_insert].
    intros k hdk Hk. cbn [mem handlers] in Hk.
    destruct (decide (k = h)) as [->|Hne].
    + rewrite list_lookup_insert_eq in Hk by (by apply Nat.ltb_lt).
      injection Hk as <-. split; [done|]. exists gs, bound.
      unfold holds. cbn [mem handlers strArrays attrArrays groups attrs].
      split; [|done]. apply list_lookup_insert_eq. by apply Nat.ltb_lt.
    + rewrite list_lookup_insert_ne in Hk by done.
      destruct (Hwf k hdk Hk) as (Hmuk & gsk & boundk & Hhk & Hgk & Hak).
      split; [done|]. exists gsk, boundk.
      unfold holds. cbn [mem handlers strArrays attrArrays] in *.
      by rewrite list_lookup_insert_ne.
  - apply andb_true_iff in Hrecv as [Hlt _].
    destruct (Hget h Hlt) as (hd & gs & bound & Hholds & Hmu).
    assert (hook_panicked E hd ctx r = false) as Hp.
    { unfold hook_panicked. destruct (HookFn hd); [|done].
      by rewrite Hhooks, andb_false_r. }
    destruct (Handle_returns E h ctx r s hd gs bound Hholds Hp Hmu) as [e Hrun].
    eexists. split; [by rewrite (bind_Ok _ _ _ _ _ Hrun)|].
    cbn [mem handlers]. split; [|done].
    apply (well_formed_grown s); [done| |done].
    repeat split; cbn [mem strArrays attrArrays handlers].
    + by exists e.
    + exists []. by rewrite app_nil_r.
    + exists []. by rewrite app_nil_r.
Qed.

(** No program over the package runs into a run-time fault of its own,
    as long as every writer given to [NewColorHandler] is a usable one
    (not nil, and its [Write] returns) and no hook panics.  From a memory
    in which every handler is usable (the empty memory, for one), any
    sequence of calls of [NewColorHandler], [WithGroup], [WithAttrs],
    [SetHook] and [Handle] whose receivers exist returns, call after
    call: no slice is read or cut out of its bounds, no mutex is left
    locked, and every handler is usable afterwards. *)
Theorem calls_keep_well_formed (E : Externals) (cs : list Call) (s : State) :
  well_formed s ->
  receivers_exist (length (handlers (mem s))) cs = true ->
  (forall f ctx r, Hook_panics E f ctx r = false) ->
  exists s',
    calls E cs s = Ok tt s'
    /\ well_formed s'
    /\ length (handlers (mem s)) <= length (handlers (mem s')).
Proof.
  revert s. induction cs as [|c cs IH]; intros s Hwf Hrecv Hhooks.
  - exists s. split; [reflexivity|]. split; [done|lia].
  - assert (receivers_exist (length (handlers (mem s))) [c] = true) as Hc.
    { destruct c; cbn [receivers_exist] in *; try done;
        apply andb_true_iff in Hrecv as [-> _]; done. }
    destruct (call_keeps_well_formed E c s Hwf Hc Hhooks)
      as (s1 & Hrun1 & Hwf1 & Hlen1).
    assert (receivers_exist (length (handlers (mem s1))) cs = true) as Hrest.
    { rewrite Hlen1. destruct c; cbn [receivers_exist] in Hrecv; try done;
        by apply andb_true_iff in Hrecv as [_ ?]. }
    destruct (IH s1 Hwf1 Hrest Hhooks) as (s' & Hrun & Hwf' & Hlen).
    exists s'. split.
    { cbn [calls]. by rewrite (bind_Ok _ _ _ _ _ Hrun1). }
    split; [done|]. destruct c; lia.
Qed.

(** The program of the package's example: a root handler, a hook on it,
    derived handlers, records through each. *)
Lemma calls_keep_well_formed_witness :
  let program :=
    [CallNew (Sink 0);
     CallSetHook 0 (Some 1);
     CallDerive (ByAttrs [MkAttr "request_id" (StringValue "req-abc-123")]) 0;
     CallDerive (ByGroup "storage") 0;
     CallDerive (ByGroup "postgres") 2;
     CallHandle 3 0 (mkRecord testTime LevelError "query failed" []);
     CallHandle 1 0 recordOne;
     CallSetHook 0 None;
     CallHandle 0 0 recordTwo] in
  well_formed emptyState
  /\ receivers_exist 0 program = true
  /\ (forall f ctx r, Hook_panics testEnv f ctx r = false)
  /\ exists s', calls testEnv program emptyState = Ok tt s' /\ well_formed s'.
Proof.
  intros program.
  split; [exact well_formed_emptyState|]. split; [reflexivity|].
  split; [reflexivity|].
  destruct (calls_keep_well_formed testEnv program emptyState
              well_formed_emptyState eq_refl (fun _ _ _ => eq_refl))
    as (s' & Hrun & Hwf & _).
  exists s'. split; [exact Hrun|exact Hwf].
Defined.
